(** * AI news dashboard: the retrieval and enrichment pipeline of [utils.py]

    A shallow embedding of the functions of [src/utils.py] that fetch a
    Google News feed, parse it into articles and derive signals from the
    articles (sentiment labels, keyword counts, the buzz meter), followed by
    the properties the specification states about them.

    Conventions of the embedding.
    - Python [str] is [string]; the character predicates ([isspace],
      [isalnum], [lower]) are the ASCII ones, so a text is read as ASCII
      (a non-ASCII byte is neither a space nor alphanumeric here).
    - Python [float] is the kernel's binary64 [float]; literals such as
      [0.2] denote the nearest double, as they do in Python.
    - Python [int] is [Z].
    - A call that may raise returns an [outcome]; [try]/[except Exception]
      is [try_]. Calls into the outside world (HTTP, the XML parser, the
      feed library) are fields of a [World] the functions are run in, and
      the observable effects (requests, sleeps, warnings) are recorded in
      a trace of [event]s.
    - The streak file is known by what reading it gives ([stored]); the
      [disk] it lives on says which of its operations (making the data
      directory, writing the file) raise.
    - The decorator [st.cache_data] memoises calls and is left out. *)

From Stdlib Require Import ZArith QArith Qround List String Ascii Bool Lia.
From Stdlib Require Import DecimalString.
From Stdlib Require Import Sorted Permutation.
From Stdlib Require Import Floats.
Import ListNotations.

Set Warnings "-inexact-float,-register-all,-notation-for-abbreviation".
Set Implicit Arguments.

Open Scope string_scope.
Open Scope Z_scope.

(* ================================================================= *)
(** ** Python strings *)

Module PyStr.

Definition code (c : ascii) : N := N_of_ascii c.

Definition in_range (lo hi : N) (c : ascii) : bool :=
  (N.leb lo (code c) && N.leb (code c) hi)%bool.

(** [str.isspace] on one ASCII character: TAB, LF, VT, FF, CR, the
    separators FS, GS, RS, US, and the space. *)
Definition isspace (c : ascii) : bool :=
  (in_range 9 13 c || in_range 28 32 c)%bool.

Definition isdigit (c : ascii) : bool := in_range 48 57 c.
Definition isupper (c : ascii) : bool := in_range 65 90 c.
Definition islower (c : ascii) : bool := in_range 97 122 c.

(** [str.isalnum] on one ASCII character: a digit or a letter. On text
    outside ASCII Python also accepts the letters and digits of other
    scripts, which this does not. *)
Definition isalnum (c : ascii) : bool :=
  (isdigit c || isupper c || islower c)%bool.

(** [str.lower] on one ASCII character; on text outside ASCII Python
    maps the upper-case letters of other scripts too. *)
Definition lower_char (c : ascii) : ascii :=
  if isupper c then ascii_of_N (code c + 32) else c.

Fixpoint lower (s : string) : string :=
  match s with
  | EmptyString => EmptyString
  | String c r => String (lower_char c) (lower r)
  end.

Fixpoint lstrip (s : string) : string :=
  match s with
  | EmptyString => EmptyString
  | String c r => if isspace c then lstrip r else s
  end.

Fixpoint rstrip (s : string) : string :=
  match s with
  | EmptyString => EmptyString
  | String c r =>
      match rstrip r with
      | EmptyString => if isspace c then EmptyString else String c EmptyString
      | r' => String c r'
      end
  end.

Definition strip (s : string) : string := rstrip (lstrip s).

(** Python truthiness of a string. *)
Definition truthy (s : string) : bool :=
  match s with EmptyString => false | _ => true end.

(** [x or ""] for an optional string. *)
Definition or_empty (o : option string) : string :=
  match o with Some s => s | None => "" end.

Fixpoint filter_chars (p : ascii -> bool) (s : string) : string :=
  match s with
  | EmptyString => EmptyString
  | String c r => if p c then String c (filter_chars p r) else filter_chars p r
  end.

Fixpoint forall_chars (p : ascii -> bool) (s : string) : bool :=
  match s with
  | EmptyString => true
  | String c r => (p c && forall_chars p r)%bool
  end.

Fixpoint exists_char (p : ascii -> bool) (s : string) : bool :=
  match s with
  | EmptyString => false
  | String c r => (p c || exists_char p r)%bool
  end.

(** [str.split()] without argument: the maximal runs of non-space
    characters, in order. [cur] is the word being read, reversed. *)
Fixpoint split_aux (s : string) (cur : list ascii) : list string :=
  match s with
  | EmptyString =>
      match cur with
      | [] => []
      | _ => [string_of_list_ascii (rev cur)]
      end
  | String c r =>
      if isspace c then
        match cur with
        | [] => split_aux r []
        | _ => string_of_list_ascii (rev cur) :: split_aux r []
        end
      else split_aux r (c :: cur)
  end.

Definition split (s : string) : list string := split_aux s [].

(** [needle in hay]. *)
Fixpoint contains (needle hay : string) : bool :=
  (prefix needle hay ||
   match hay with
   | EmptyString => false
   | String _ r => contains needle r
   end)%bool.

(** [str(n)] for an integer. *)
Definition of_int (n : Z) : string := NilZero.string_of_int (Z.to_int n).

(** The first [n] characters. *)
Fixpoint take_n (n : nat) (s : string) : string :=
  match n, s with
  | S k, String c r => String c (take_n k r)
  | _, _ => EmptyString
  end.

(** The slice [s[:k]]; a negative [k] counts from the end. *)
Definition take (k : Z) (s : string) : string :=
  if 0 <=? k then take_n (Z.to_nat k) s
  else take_n (String.length s - Z.to_nat (- k)) s.

(** The highest index at which [sub] occurs in [s], counted from [i]
    at the head of [s]; [-1] when it does not occur. *)
Fixpoint find_last (sub s : string) (i : Z) : Z :=
  match s with
  | EmptyString => if prefix sub s then i else -1
  | String _ r =>
      let later := find_last sub r (i + 1) in
      if 0 <=? later then later
      else if prefix sub s then i else -1
  end.

(** [s.rfind(sub, 0, stop)]: the search is confined to [s[0:stop]]. *)
Definition rfind (sub s : string) (stop : Z) : Z :=
  find_last sub (take stop s) 0.

(** [s.replace(a, b)] for one-character [a] and [b]. *)
Fixpoint replace_char (a b : ascii) (s : string) : string :=
  match s with
  | EmptyString => EmptyString
  | String c r => String (if Ascii.eqb c a then b else c) (replace_char a b r)
  end.

End PyStr.

(* ================================================================= *)
(** ** Python floats *)

Module PyFloat.

(** [int(x)]: truncation toward zero; [None] where Python raises
    (infinities and NaN). *)
Definition to_int (x : float) : option Z :=
  match Prim2SF x with
  | S754_zero _ => Some 0
  | S754_finite s m e =>
      let v := if 0 <=? e then Zpos m * 2 ^ e else Zpos m / 2 ^ (- e) in
      Some (if s then - v else v)
  | S754_infinity _ | S754_nan => None
  end.

(** The float of an integer [0 <= n < 2^63] (the range of a length):
    the nearest double, exact below [2^53]. *)
Definition of_int (n : Z) : float := of_uint63 (Uint63.of_Z n).

(** [n / d] on two integers (true division). Operands below [2^53] are
    converted exactly and the quotient is rounded once, as CPython does;
    on longer operands CPython rounds the exact quotient, which the
    quotient of the rounded operands can miss in the last place. *)
Definition truediv (n d : Z) : float := (of_int n / of_int d)%float.

End PyFloat.

(* ================================================================= *)
(** ** Sentiment ([_init_vader], [analyze_sentiment_batch]) *)

(** A value stored in a result dictionary. *)
Inductive value : Type :=
| VFloat (x : float)
| VStr (s : string).

(** A Python [dict] with string keys, in insertion order. *)
Definition dict := list (string * value).

Fixpoint dict_get (k : string) (d : dict) : option value :=
  match d with
  | [] => None
  | (k', v) :: r => if String.eqb k' k then Some v else dict_get k r
  end.

(** [d[k] = v]: overwrite in place, or append. *)
Fixpoint dict_set (k : string) (v : value) (d : dict) : dict :=
  match d with
  | [] => [(k, v)]
  | (k', v') :: r =>
      if String.eqb k' k then (k', v) :: r else (k', v') :: dict_set k v r
  end.

(** What VADER's [polarity_scores] returns. *)
Record polarity := {
  neg : float;
  neu : float;
  pos : float;
  compound : float
}.

Definition polarity_dict (p : polarity) : dict :=
  [("neg", VFloat (neg p)); ("neu", VFloat (neu p));
   ("pos", VFloat (pos p)); ("compound", VFloat (compound p))].

(** An analyzer object: its [polarity_scores] method. *)
Definition analyzer := string -> polarity.

(** A result that is either a value or a raised exception, given by its
    description ([str(e)]). *)
Inductive outcome (A : Type) : Type :=
| Return (a : A)
| Raise (e : string).

Arguments Return {A} a.
Arguments Raise {A} e.

(** [SentimentIntensityAnalyzer] is [None] when the import failed;
    otherwise constructing the analyzer (after the lexicon download) may
    raise. *)
Definition _init_vader (SentimentIntensityAnalyzer : option (outcome analyzer))
  : option analyzer :=
  match SentimentIntensityAnalyzer with
  | None => None
  | Some construct =>
      match construct with
      | Return sia => Some sia
      | Raise _ => None
      end
  end.

(** The conditional expression of line 210. *)
Definition sentiment_label (c : float) : string :=
  if (0.2 <? c)%float then "positive"
  else if (c <? -0.2)%float then "negative"
  else "neutral".

Definition neutral_result : dict :=
  [("compound", VFloat 0.0%float); ("label", VStr "neutral")].

Definition analyze_one (sia : option analyzer) (t : option string) : dict :=
  match sia with
  | None => neutral_result
  | Some score =>
      let p := score (PyStr.or_empty t) in
      let label := sentiment_label (compound p) in
      dict_set "label" (VStr label) (polarity_dict p)
  end.

(** The loop appends one result per text. *)
Fixpoint analyze_loop (sia : option analyzer) (texts : list (option string))
  (results : list dict) : list dict :=
  match texts with
  | [] => results
  | t :: rest => analyze_loop sia rest (results ++ [analyze_one sia t])
  end.

Definition analyze_sentiment_batch
  (SentimentIntensityAnalyzer : option (outcome analyzer))
  (texts : list (option string)) : list dict :=
  let sia := _init_vader SentimentIntensityAnalyzer in
  analyze_loop sia texts [].

(* ================================================================= *)
(** ** Keywords ([extract_keywords]) *)

(** [collections.Counter]: keys in the order they were first seen. *)
Fixpoint counter_add (w : string) (cnt : list (string * Z)) : list (string * Z) :=
  match cnt with
  | [] => [(w, 1)]
  | (k, n) :: r =>
      if String.eqb k w then (k, n + 1) :: r else (k, n) :: counter_add w r
  end.

Definition Counter (tokens : list string) : list (string * Z) :=
  fold_left (fun cnt w => counter_add w cnt) tokens [].

(** Stable sort by decreasing count ([sorted(..., reverse=True)] on the
    count keeps equal counts in their original order). *)
Fixpoint insert_desc (x : string * Z) (l : list (string * Z)) : list (string * Z) :=
  match l with
  | [] => [x]
  | y :: r => if snd y <=? snd x then x :: y :: r else y :: insert_desc x r
  end.

Definition sort_desc (l : list (string * Z)) : list (string * Z) :=
  fold_right insert_desc [] l.

(** The slice [l[:k]]. *)
Definition py_take (A : Type) (k : Z) (l : list A) : list A :=
  if 0 <=? k then firstn (Z.to_nat k) l
  else firstn (List.length l - Z.to_nat (- k)) l.

(** [Counter.most_common(n)] for an integer [n]: the [n] largest counts,
    first seen first among equals; nothing when [n] is not positive. *)
Definition most_common (n : Z) (cnt : list (string * Z)) : list (string * Z) :=
  firstn (Z.to_nat n) (sort_desc cnt).

Definition fillers : list string :=
  ["the"; "from"; "says"; "and"; "or"; "a"; "an"; "to"; "in"; "of"; "on";
   "for"; "with"].

Definition is_filler (w : string) : bool := existsb (String.eqb w) fillers.

(** The inner loop over the words of one text. *)
Fixpoint keep_words (ws : list string) (tokens : list string) : list string :=
  match ws with
  | [] => tokens
  | w0 :: rest =>
      let w := PyStr.filter_chars PyStr.isalnum w0 in
      if ((Z.of_nat (String.length w) <? 3) || is_filler w)%bool
      then keep_words rest tokens
      else keep_words rest (tokens ++ [w])
  end.

(** The outer loop over the texts. *)
Fixpoint collect_tokens (texts : list (option string)) (tokens : list string)
  : list string :=
  match texts with
  | [] => tokens
  | t :: rest =>
      collect_tokens rest
        (keep_words (PyStr.split (PyStr.lower (PyStr.or_empty t))) tokens)
  end.

(** [CountVectorizer] is [None] when scikit-learn is missing; otherwise
    it is taken as the function from the texts to the list [freq] of
    pairs [(word, summed count)] in the order of its vocabulary, which
    raises where [fit_transform] does (a text that is [None], texts
    that leave the vocabulary empty). Nothing handles the exception. *)
Definition extract_keywords
  (CountVectorizer :
     option (list (option string) -> outcome (list (string * Z))))
  (texts : list (option string)) (top_k : Z) : outcome (list (string * Z)) :=
  match texts with
  | [] => Return []
  | _ =>
      match CountVectorizer with
      | None => Return (most_common top_k (Counter (collect_tokens texts [])))
      | Some vect =>
          match vect texts with
          | Raise e => Raise e
          | Return freq => Return (py_take top_k (sort_desc freq))
          end
      end
  end.

(* ================================================================= *)
(** ** Buzz meter ([buzz_meter_value]) *)

Section Buzz.

Variable article : Type.

(** [max(5, min(100, int(100 * (n / 40))))] in binary64 arithmetic;
    [None] only if [int] were to raise. *)
Definition buzz_of_count (n : Z) : option Z :=
  match PyFloat.to_int (100 * PyFloat.truediv n 40)%float with
  | Some v => Some (Z.max 5 (Z.min 100 v))
  | None => None
  end.

Definition buzz_meter_value (articles : list article) : option Z :=
  let n := Z.of_nat (List.length articles) in
  buzz_of_count n.

End Buzz.

(** The same expression read over the rationals: [n / 40] and the
    product are exact, [int] truncates (the argument is never negative). *)
Definition buzz_exact (n : Z) : Z :=
  Z.max 5 (Z.min 100 (Qfloor (100 * (inject_Z n / 40))%Q)).

(** Python's [round] on a rational: to the nearest integer, a tie to the
    even one. *)
Definition py_round (q : Q) : Z :=
  let f := Qfloor q in
  let r := (q - inject_Z f)%Q in
  match (r ?= 1 # 2)%Q with
  | Lt => f
  | Gt => f + 1
  | Eq => if Z.even f then f else f + 1
  end.

(** The formula as the specification words it, with [round]. *)
Definition buzz_spec (n : Z) : Z :=
  Z.max 5 (Z.min 100 (py_round (100 * inject_Z n / 40)%Q)).

(* ================================================================= *)
(** ** Feed URL ([quote_plus], [_google_news_url]) *)

(** [x or d] on integers: [0] is falsy. *)
Definition int_or (x d : Z) : Z := if x =? 0 then d else x.

Module Url.

Definition is_char (a : ascii) (c : ascii) : bool := Ascii.eqb a c.

(** The characters [urllib.parse.quote] never escapes. *)
Definition always_safe (c : ascii) : bool :=
  (PyStr.isalnum c || is_char "_" c || is_char "." c || is_char "-" c
   || is_char "~" c)%bool.

Definition hex_digit (n : N) : ascii :=
  match n with
  | 0%N => "0" | 1%N => "1" | 2%N => "2" | 3%N => "3"
  | 4%N => "4" | 5%N => "5" | 6%N => "6" | 7%N => "7"
  | 8%N => "8" | 9%N => "9" | 10%N => "A" | 11%N => "B"
  | 12%N => "C" | 13%N => "D" | 14%N => "E" | _ => "F"
  end%char.

(** ['%{:02X}'] of one byte. *)
Definition percent (c : ascii) : string :=
  String "%" (String (hex_digit (PyStr.code c / 16))
             (String (hex_digit (PyStr.code c mod 16)) EmptyString)).

Fixpoint quote (safe : ascii -> bool) (s : string) : string :=
  match s with
  | EmptyString => EmptyString
  | String c r =>
      if safe c then String c (quote safe r) else percent c ++ quote safe r
  end.

Fixpoint replace_char (a b : ascii) (s : string) : string :=
  match s with
  | EmptyString => EmptyString
  | String c r => String (if Ascii.eqb c a then b else c) (replace_char a b r)
  end.

(** [quote_plus]: with a space in the text, quote with the space kept
    and then turn every space into a plus; otherwise plain [quote]. *)
Definition quote_plus (s : string) : string :=
  if PyStr.exists_char (is_char " ") s
  then replace_char " " "+"
         (quote (fun c => (always_safe c || is_char " " c)%bool) s)
  else quote always_safe s.

End Url.

Definition lookback_days (days_back : Z) : Z := Z.max 1 (int_or days_back 7).

Definition query_param (query : string) : string :=
  if PyStr.truthy query then Url.quote_plus (PyStr.strip query) else "AI".

Definition _google_news_url (query : string) (days_back : Z)
  (region lang : string) : string :=
  let q := query_param query in
  let days := lookback_days days_back in
  "https://news.google.com/rss/search?"
  ++ "q=" ++ q ++ "+when:" ++ PyStr.of_int days ++ "d&hl=" ++ lang ++ "-"
  ++ region ++ "&gl=" ++ region ++ "&ceid=" ++ region ++ ":" ++ lang.

(* ================================================================= *)
(** ** Effects *)

Inductive event : Type :=
| EvGet (url user_agent : string) (timeout : Z)
| EvSleep (seconds : float)
| EvWarning (msg : string).

Definition trace := list event.

(** A computation threads the trace and ends in a value or a raised
    exception. *)
Definition io (A : Type) : Type := trace -> outcome A * trace.

Definition ret (A : Type) (a : A) : io A := fun tr => (Return a, tr).

Definition bind (A B : Type) (m : io A) (k : A -> io B) : io B :=
  fun tr =>
    match m tr with
    | (Return a, tr') => k a tr'
    | (Raise e, tr') => (Raise e, tr')
    end.

Definition emit (ev : event) : io unit := fun tr => (Return tt, (tr ++ [ev])%list).

Definition lift (A : Type) (o : outcome A) : io A := fun tr => (o, tr).

(** [try: m  except Exception as e: ...]: the outcome is handed to the
    continuation, nothing escapes. *)
Definition try_ (A : Type) (m : io A) : io (outcome A) :=
  fun tr => let (o, tr') := m tr in (Return o, tr').

Declare Scope io_scope.
Delimit Scope io_scope with io.
Notation "x <- m ;; k" := (bind m (fun x => k))
  (at level 100, m at next level, right associativity) : io_scope.
Notation "m ;;; k" := (bind m (fun _ => k))
  (at level 100, right associativity) : io_scope.

(* ================================================================= *)
(** ** The feed: data *)

(** An element of an [xml.etree.ElementTree] document. *)
Inductive element : Type :=
| Element (tag : string) (text : option string) (children : list element).

Definition tag (e : element) : string :=
  match e with Element t _ _ => t end.
Definition text (e : element) : option string :=
  match e with Element _ x _ => x end.
Definition children (e : element) : list element :=
  match e with Element _ _ cs => cs end.

(** [e.iter()]: the element and its descendants in document order. *)
Fixpoint iter (e : element) : list element :=
  match e with
  | Element _ _ cs => e :: flat_map iter cs
  end.

(** [root.findall(".//item")]: the proper descendants whose tag is
    [item], in document order. *)
Definition findall_items (root : element) : list element :=
  filter (fun e => String.eqb (tag e) "item") (flat_map iter (children root)).

(** [item.findtext(name)]: the text of the first child of that tag
    (["" ] when it has none), [None] when there is no such child. *)
Definition findtext (item : element) (name : string) : option string :=
  match find (fun c => String.eqb (tag c) name) (children item) with
  | Some c => Some (PyStr.or_empty (text c))
  | None => None
  end.

(** The first child whose lower-cased tag contains [source]. *)
Definition item_source (item : element) : string :=
  match find (fun c => PyStr.contains "source" (PyStr.lower (tag c)))
             (children item) with
  | Some c => PyStr.strip (PyStr.or_empty (text c))
  | None => ""
  end.

(** An entry of a parsed [feedparser] feed: an absent attribute is
    [None]; [entry_source] is [Some o] when the entry has a source, with
    [o] its title if it has one (and it is not [None]). *)
Record entry := {
  entry_title : option string;
  entry_link : option string;
  entry_published : option string;
  entry_source : option (option string)
}.

Record article := {
  title : string;
  link : string;
  published : string;
  source : string
}.

(** The outside world: the [n]-th HTTP request of a run ([requests.get]
    followed by [raise_for_status] and [.text]), the XML parser, and the
    feed library (importing it included). *)
Record World := {
  requests_get : nat -> string -> string -> Z -> outcome string;
  ET_fromstring : string -> outcome element;
  feedparser_parse : string -> outcome (list entry)
}.

Definition is_get (ev : event) : bool :=
  match ev with EvGet _ _ _ => true | _ => false end.

Definition http_get (w : World) (url user_agent : string) (timeout : Z)
  : io string :=
  fun tr =>
    (requests_get w (List.length (filter is_get tr)) url user_agent timeout,
     (tr ++ [EvGet url user_agent timeout])%list).

Definition sleep (seconds : float) : io unit := emit (EvSleep seconds).

Definition st_warning (msg : string) : io unit := emit (EvWarning msg).

(* ================================================================= *)
(** ** The feed: [fetch_google_news] and [fetch_news] *)

Definition _UA : string :=
  "Mozilla/5.0 (Windows NT 10.0; Win64; x64) "
  ++ "AppleWebKit/537.36 (KHTML, like Gecko) "
  ++ "Chrome/124.0.0.0 Safari/537.36".

(** [str(last_err)]. *)
Definition str_err (last_err : option string) : string :=
  match last_err with Some e => e | None => "None" end.

(** The pause after a failed attempt: [0.5 * (attempt + 1)]. *)
Definition backoff (attempt : Z) : float :=
  (0.5 * PyFloat.of_int (attempt + 1))%float.

(** The [for attempt in range(3)] loop: [inl xml_text] on [break],
    [inr last_err] when the loop runs out (its [else] branch). *)
Fixpoint http_attempts (w : World) (url : string) (attempts : list Z)
  (last_err : option string) : io (string + option string) :=
  match attempts with
  | [] => ret (inr last_err)
  | attempt :: rest =>
      (r <- try_ (http_get w url _UA 10) ;;
       match r with
       | Return xml_text => ret (inl xml_text)
       | Raise e =>
           sleep (backoff attempt) ;;;
           http_attempts w url rest (Some e)
       end)%io
  end.

Definition article_cap (max_articles : Z) : Z := Z.max 1 (int_or max_articles 15).

(** The body of the XML loop up to the test [if title and link]: the
    article an [item] gives, if it has a title and a link. *)
Definition item_article (item : element) : option article :=
  let title_ := PyStr.strip (PyStr.or_empty (findtext item "title")) in
  let link_ := PyStr.strip (PyStr.or_empty (findtext item "link")) in
  let pubdate := PyStr.strip (PyStr.or_empty (findtext item "pubDate")) in
  let source_ := item_source item in
  if (PyStr.truthy title_ && PyStr.truthy link_)%bool
  then Some {| title := title_; link := link_;
               published := pubdate; source := source_ |}
  else None.

(** [articles.append(a)] when there is an article to append. *)
Definition append_opt (articles : list article) (o : option article)
  : list article :=
  match o with
  | Some a => (articles ++ [a])%list
  | None => articles
  end.

(** The loop over the [item] elements, with its [break]. *)
Fixpoint xml_loop (cap : Z) (items : list element) (articles : list article)
  : list article :=
  match items with
  | [] => articles
  | item :: rest =>
      let articles' := append_opt articles (item_article item) in
      if cap <=? Z.of_nat (List.length articles') then articles'
      else xml_loop cap rest articles'
  end.

(** The same for an entry of the feed library. *)
Definition entry_article (e : entry) : option article :=
  let title_ := PyStr.strip (PyStr.or_empty (entry_title e)) in
  let link_ := PyStr.strip (PyStr.or_empty (entry_link e)) in
  let pubdate := PyStr.strip (PyStr.or_empty (entry_published e)) in
  let source_ :=
    match entry_source e with
    | Some (Some t) => PyStr.strip t
    | _ => ""
    end in
  if (PyStr.truthy title_ && PyStr.truthy link_)%bool
  then Some {| title := title_; link := link_;
               published := pubdate; source := source_ |}
  else None.

(** The loop over the (already sliced) entries of the feed library. *)
Fixpoint entries_loop (entries : list entry) (articles : list article)
  : list article :=
  match entries with
  | [] => articles
  | e :: rest => entries_loop rest (append_opt articles (entry_article e))
  end.

Definition empty_feed_message : string :=
  "Feed returned no items (query/source may be blocked or empty).".

(** The last three lines: an empty list is an error of its own. *)
Definition finish (articles : list article) : list article * option string :=
  match articles with
  | [] => ([], Some empty_feed_message)
  | _ => (articles, None)
  end.

(** The XML strategy: only [ET.fromstring] raises; the loop after it is
    total, so when the handler runs [articles] is still empty. *)
Definition xml_strategy (w : World) (xml_text : string) (max_articles : Z)
  : io (list article) :=
  (root <- lift (ET_fromstring w xml_text) ;;
   ret (xml_loop (article_cap max_articles) (findall_items root) []))%io.

Definition feedparser_strategy (w : World) (xml_text : string)
  (max_articles : Z) : io (list article) :=
  (feed <- lift (feedparser_parse w xml_text) ;;
   ret (entries_loop (py_take (article_cap max_articles) feed) []))%io.

Definition parse_rss (w : World) (xml_text : string) (max_articles : Z)
  : io (list article * option string) :=
  (r <- try_ (xml_strategy w xml_text max_articles) ;;
   match r with
   | Return articles => ret (finish articles)
   | Raise _ =>
       r2 <- try_ (feedparser_strategy w xml_text max_articles) ;;
       match r2 with
       | Return articles => ret (finish articles)
       | Raise e2 => ret ([], Some ("Parse error: " ++ e2))
       end
   end)%io.

Definition fetch_google_news (w : World) (query : string) (days_back : Z)
  (max_articles : Z) (region lang : string)
  : io (list article * option string) :=
  let url := _google_news_url query days_back region lang in
  (r <- http_attempts w url [0; 1; 2] None ;;
   match r with
   | inr last_err =>
       ret ([], Some ("HTTP error fetching RSS: " ++ str_err last_err))
   | inl xml_text => parse_rss w xml_text max_articles
   end)%io.

(** The second definition of [fetch_news] (line 534), which replaces the
    first one (line 348) when the module is loaded. *)
Definition fetch_news (w : World) (query : string) (days : Z) (max_items : Z)
  : io (list article) :=
  (p <- fetch_google_news w query days max_items "US" "en" ;;
   let (articles, err) := p in
   match err with
   | Some e =>
       if PyStr.truthy e then (st_warning e ;;; ret articles) else ret articles
   | None => ret articles
   end)%io.

(* ================================================================= *)
(** ** Summaries ([summarize_text]) *)

Definition newline : ascii := "010"%char.

(** The suffix of a shortened summary, as the source file spells it:
    the characters U+00E2, U+20AC, U+00A6, here in UTF-8. *)
Definition ellipsis : string :=
  string_of_list_ascii
    (map ascii_of_nat [195; 162; 226; 130; 172; 194; 166]%nat).

(** [text.strip().replace("\n", " ")]. *)
Definition one_line (text : string) : string :=
  PyStr.replace_char newline " " (PyStr.strip text).

(** The position of the last clause break before [max_chars]. *)
Definition clause_break (t : string) (max_chars : Z) : Z :=
  Z.max (Z.max (PyStr.rfind ". " t max_chars) (PyStr.rfind "; " t max_chars))
        (PyStr.rfind ", " t max_chars).

Definition summarize_text (text : string) (max_chars : Z) : string :=
  if negb (PyStr.truthy text) then ""
  else
    let t := one_line text in
    if Z.of_nat (String.length t) <=? max_chars then t
    else
      let stop := clause_break t max_chars in
      let stop := if stop <? 40 then max_chars else stop in
      PyStr.rstrip (PyStr.take stop t) ++ ellipsis.

(* ================================================================= *)
(** ** Places ([KNOWN_PLACES], [guess_location_from_text]) *)

Definition KNOWN_PLACES : list (string * (float * float)) :=
  [ ("San Francisco", (37.7749, -122.4194)%float);
    ("New York", (40.7128, -74.0060)%float);
    ("London", (51.5074, -0.1278)%float);
    ("Paris", (48.8566, 2.3522)%float);
    ("Berlin", (52.5200, 13.4050)%float);
    ("Tokyo", (35.6895, 139.6917)%float);
    ("Beijing", (39.9042, 116.4074)%float);
    ("Seoul", (37.5665, 126.9780)%float);
    ("Bengaluru", (12.9716, 77.5946)%float);
    ("Mumbai", (19.0760, 72.8777)%float);
    ("Sydney", (-33.8688, 151.2093)%float);
    ("Toronto", (43.6532, -79.3832)%float) ].

(** [name.lower() in text.lower()]. *)
Definition mentions (text name : string) : bool :=
  PyStr.contains (PyStr.lower name) (PyStr.lower text).

(** The loop over the places, in the order of the table. *)
Fixpoint first_place (places : list (string * (float * float))) (text : string)
  : option (float * float * string) :=
  match places with
  | [] => None
  | (name, (lat, lon)) :: rest =>
      if mentions text name then Some (lat, lon, name)
      else first_place rest text
  end.

Definition guess_location_from_text (text : string)
  : option (float * float * string) :=
  if negb (PyStr.truthy text) then None
  else first_place KNOWN_PLACES text.

(* ================================================================= *)
(** ** Callers: the pages *)

(** [AI_News.py], line 161: [(top_query or "").strip() or "AI"]. *)
Definition effective_query (top_query : option string) : string :=
  let q := PyStr.strip (PyStr.or_empty top_query) in
  if PyStr.truthy q then q else "AI".

(** The text the pages build for an article. The articles of
    [fetch_news] have no [summary] key, so [a.get("summary") or ""] is
    the empty string. *)
Definition page_text (a : article) : option string :=
  Some (PyStr.or_empty (Some (title a)) ++ ". " ++ PyStr.or_empty None).

Definition page_texts (articles : list article) : list (option string) :=
  map page_text articles.

(** [s.get("label") == l]. *)
Definition has_label (l : string) (s : dict) : bool :=
  match dict_get "label" s with
  | Some (VStr x) => String.eqb x l
  | _ => false
  end.

(** [sum(1 for s in scores if s.get("label") == l)]. *)
Definition count_label (l : string) (scores : list dict) : Z :=
  Z.of_nat (List.length (filter (has_label l) scores)).

(** [pages/2_Bias_Analysis.py], lines 24 to 26: [(pos, neg, neu)]. *)
Definition label_distribution (scores : list dict) : Z * Z * Z :=
  let pos := count_label "positive" scores in
  let neg := count_label "negative" scores in
  let neu := Z.of_nat (List.length scores) - pos - neg in
  (pos, neg, neu).

(* ================================================================= *)
(** ** The daily streak ([_load_json], [_save_json], [get_daily_streak],
       [increment_daily_streak]) *)

(** A value as [json.loads] gives it. *)
Inductive json : Type :=
| JNull
| JBool (b : bool)
| JInt (n : Z)
| JFloat (x : float)
| JStr (s : string)
| JList (items : list json)
| JObject (members : list (string * json)).

(** Python's name of the type of a value. *)
Definition type_name (v : json) : string :=
  match v with
  | JNull => "NoneType"
  | JBool _ => "bool"
  | JInt _ => "int"
  | JFloat _ => "float"
  | JStr _ => "str"
  | JList _ => "list"
  | JObject _ => "dict"
  end.

(** The streak file, by what reading it gives: no file, a file whose
    reading or parsing raises, or the value its text parses to. *)
Inductive stored : Type :=
| Missing
| Unreadable
| Holds (v : json).

(** The part of the file system the streak functions touch: the error
    [DATA_DIR.mkdir] raises, if it raises; the streak file; and the
    error [write_text] raises on the streak file, if it raises, with
    what the file reads as after the failed write. *)
Record disk := {
  mkdir_error : option string;
  streak_file : stored;
  write_error : option (string * stored)
}.

Definition ensure_data_dir (d : disk) : outcome unit :=
  match mkdir_error d with
  | Some e => Raise e
  | None => Return tt
  end.

Definition _load_json (f : stored) : json :=
  match f with
  | Missing => JObject []
  | Unreadable => JObject []
  | Holds v => v
  end.

(** [path.write_text(json.dumps(data))]: after a write that returns,
    reading the file gives [data] back. *)
Definition _save_json (data : list (string * json)) (d : disk)
  : outcome unit * disk :=
  match write_error d with
  | Some (e, f) =>
      (Raise e, {| mkdir_error := mkdir_error d;
                   streak_file := f;
                   write_error := write_error d |})
  | None =>
      (Return tt, {| mkdir_error := mkdir_error d;
                     streak_file := Holds (JObject data);
                     write_error := write_error d |})
  end.

(** [data.get(k)] on the members of an object. *)
Fixpoint json_get (k : string) (d : list (string * json)) : option json :=
  match d with
  | [] => None
  | (k', v) :: r => if String.eqb k' k then Some v else json_get k r
  end.

(** [data[k] = v]: overwrite in place, or append. *)
Fixpoint json_set (k : string) (v : json) (d : list (string * json))
  : list (string * json) :=
  match d with
  | [] => [(k, v)]
  | (k', v') :: r =>
      if String.eqb k' k then (k', v) :: r else (k', v') :: json_set k v r
  end.

(** Looking up the method [get]: only a [dict] has it. *)
Definition members_of (v : json) : outcome (list (string * json)) :=
  match v with
  | JObject d => Return d
  | _ => Raise ("'" ++ type_name v ++ "' object has no attribute 'get'")
  end.

(** [last == s] for what [data.get("last_date")] gave and a string. *)
Definition is_str (last : option json) (s : string) : bool :=
  match last with
  | Some (JStr x) => String.eqb x s
  | _ => false
  end.

Section Streak.

(** [int(s)] on a string, and the day before a day in the format
    [%Y-%m-%d] ([strptime], [timedelta], [strftime]); both may raise. *)
Variable int_of_str : string -> outcome Z.
Variable yesterday : string -> outcome string.

(** [int(v)]. *)
Definition py_int (v : json) : outcome Z :=
  match v with
  | JInt n => Return n
  | JBool b => Return (if b then 1 else 0)
  | JFloat x =>
      match PyFloat.to_int x with
      | Some n => Return n
      | None =>
          Raise (if PrimFloat.is_nan x
                 then "cannot convert float NaN to integer"
                 else "cannot convert float infinity to integer")
      end
  | JStr s => int_of_str s
  | _ =>
      Raise ("int() argument must be a string, a bytes-like object or a real number, not '"
             ++ type_name v ++ "'")
  end.

(** [int(data.get("streak", 0))]. *)
Definition stored_streak (d : list (string * json)) : outcome Z :=
  py_int (match json_get "streak" d with Some v => v | None => JInt 0 end).

Definition get_daily_streak (d : disk) : outcome Z :=
  match ensure_data_dir d with
  | Raise e => Raise e
  | Return _ =>
      match members_of (_load_json (streak_file d)) with
      | Raise e => Raise e
      | Return data => stored_streak data
      end
  end.

(** [today] is [datetime.now().strftime("%Y-%m-%d")]. The result is the
    outcome of the call and the disk after it. *)
Definition increment_daily_streak (today : string) (d : disk)
  : outcome unit * disk :=
  match ensure_data_dir d with
  | Raise e => (Raise e, d)
  | Return _ =>
      match members_of (_load_json (streak_file d)) with
      | Raise e => (Raise e, d)
      | Return data =>
          let last := json_get "last_date" data in
          if is_str last today then (Return tt, d)
          else
            match stored_streak data with
            | Raise e => (Raise e, d)
            | Return streak =>
                let streak :=
                  match yesterday today with
                  | Return yday => if is_str last yday then streak + 1 else 1
                  | Raise _ => 1
                  end in
                let data :=
                  json_set "last_date" (JStr today)
                    (json_set "streak" (JInt streak) data) in
                _save_json data d
            end
      end
  end.

End Streak.

(* ================================================================= *)
(** ** Sample inputs *)

Module Sample.

(** The texts of the keyword example of the specification. *)
Definition keyword_texts : list (option string) :=
  [Some "AI helps doctors"; Some "AI helps lawyers"; Some "doctors use AI"].

(** An analyzer that scores every text the same. *)
Definition constant_analyzer (c : float) : analyzer :=
  fun _ => {| neg := 0; neu := 1; pos := 0; compound := c |}.

Definition mixed_texts : list (option string) :=
  [Some ""; None; Some "Chips are up. Markets cheer a new AI model."].

End Sample.

(* ================================================================= *)
(** ** Predicates of the specification *)

(** The label of a score, as the thresholds determine it. *)
Definition labelled (c : float) (lbl : string) : Prop :=
  (lbl = "positive" <-> (0.2 <? c)%float = true)
  /\ (lbl = "negative" <-> (c <? -0.2)%float = true)
  /\ (lbl = "neutral" <->
      (0.2 <? c)%float = false /\ (c <? -0.2)%float = false).

(** A result dictionary carries a score and the label that goes with it. *)
Definition well_labelled (r : dict) : Prop :=
  exists c lbl,
    dict_get "compound" r = Some (VFloat c)
    /\ dict_get "label" r = Some (VStr lbl)
    /\ labelled c lbl.


(** A token the fallback keeps has at least three characters. *)
Definition long_enough (w : string) : Prop := (3 <= String.length w)%nat.

(** [t1] occurs in the ranking [r], and before every occurrence of [t2]. *)
Definition ranked_above (t1 t2 : string) (r : list (string * Z)) : Prop :=
  exists i,
    nth_error (map fst r) i = Some t1
    /\ forall j, nth_error (map fst r) j = Some t2 -> (i < j)%nat.

(** The article counts on which the binary64 evaluation of the buzz
    formula is compared with its exact reading. *)
Definition buzz_checked_bound : Z := 10000.

(** [sys.maxsize] of a 64-bit build: no list is longer. *)
Definition sys_maxsize : Z := 2 ^ 63 - 1.

(** A positive normal binary64 number whose exponent lies between [lo]
    and [hi]. *)
Definition normal_pos (x : spec_float) (lo hi : Z) : Prop :=
  exists m e,
    x = S754_finite false m e /\ 2 ^ 52 <= Zpos m < 2 ^ 53 /\ lo <= e <= hi.

Definition buzz_agrees (n : Z) : bool :=
  match buzz_of_count n with
  | Some v => v =? buzz_exact n
  | None => false
  end.

(** The counts [start], [start + 1], ... ([len] of them), for the
    exhaustive comparison. *)
Fixpoint counts_from (start : Z) (len : nat) : list Z :=
  match len with
  | O => []
  | S k => start :: counts_from (start + 1) k
  end.

Definition counts_upto (bound : Z) : list Z :=
  counts_from 0 (S (Z.to_nat bound)).

(** An upper-case hexadecimal digit. *)
Definition is_hex (c : ascii) : bool :=
  (PyStr.isdigit c || PyStr.in_range 65 70 c)%bool.

(** A percent-encoded query component: unreserved characters, [+] for a
    space, and escapes [%XY] with two hexadecimal digits. *)
Fixpoint well_encoded (s : string) : bool :=
  match s with
  | EmptyString => true
  | String c r =>
      if Url.is_char "%" c then
        match r with
        | String h (String l r') => (is_hex h && is_hex l && well_encoded r')%bool
        | _ => false
        end
      else ((Url.always_safe c || Url.is_char "+" c) && well_encoded r)%bool
  end.

(** An article a caller can use: it has a title and a link. *)
Definition valid_article (a : article) : Prop :=
  title a <> "" /\ link a <> "".

Definition opt_list (A : Type) (o : option A) : list A :=
  match o with Some a => [a] | None => [] end.

(** The articles of the items (entries) that have a title and a link,
    in order. *)
Definition articles_of_items (items : list element) : list article :=
  flat_map (fun i => opt_list (item_article i)) items.

Definition articles_of_entries (entries : list entry) : list article :=
  flat_map (fun e => opt_list (entry_article e)) entries.

(** What either strategy retains: valid articles, at most the cap. *)
Definition retained (max_articles : Z) (articles : list article) : Prop :=
  Forall valid_article articles
  /\ Z.of_nat (List.length articles) <= article_cap max_articles.

(** A result pairs an error with no articles, or no error with some. *)
Definition consistent (res : list article * option string) : Prop :=
  (snd res = None <-> fst res <> [])
  /\ (snd res <> None -> fst res = []).

(** The number of requests a trace records. *)
Definition gets (tr : trace) : nat := List.length (filter is_get tr).

(** The request every attempt sends for a given URL. *)
Definition the_get (url : string) : event := EvGet url _UA 10.

(** What a run of the retry loop can add to the trace. *)
Definition retry_traces (url : string) : list (list event) :=
  [ [the_get url];
    [the_get url; EvSleep (backoff 0); the_get url];
    [the_get url; EvSleep (backoff 0); the_get url; EvSleep (backoff 1);
     the_get url];
    [the_get url; EvSleep (backoff 0); the_get url; EvSleep (backoff 1);
     the_get url; EvSleep (backoff 2)] ].

Module SampleFeed.

Definition leaf (t x : string) : element := Element t (Some x) [].

(** An item with a title and no link, then two complete items. *)
Definition item_untitled_link : element :=
  Element "item" None [leaf "title" "Only a title"; Element "link" None []].

Definition item_a : element :=
  Element "item" None
    [leaf "title" " Chips rally "; leaf "link" "https://example.org/a";
     leaf "pubDate" "Mon, 02 Nov 2026 10:00:00 GMT";
     leaf "source" "Example Wire"].

Definition item_b : element :=
  Element "item" None
    [leaf "title" "Labs hire"; leaf "link" "https://example.org/b"].

Definition root : element :=
  Element "rss" None
    [Element "channel" None
       [leaf "title" "feed"; item_untitled_link; item_a; item_b]].

(** The same three entries as the feed library reports them. *)
Definition entries : list entry :=
  [ {| entry_title := Some "Only a title"; entry_link := Some "";
       entry_published := None; entry_source := None |};
    {| entry_title := Some " Chips rally ";
       entry_link := Some "https://example.org/a";
       entry_published := Some "Mon, 02 Nov 2026 10:00:00 GMT";
       entry_source := Some (Some "Example Wire") |};
    {| entry_title := Some "Labs hire";
       entry_link := Some "https://example.org/b";
       entry_published := None; entry_source := None |} ].

Definition article_a : article :=
  {| title := "Chips rally"; link := "https://example.org/a";
     published := "Mon, 02 Nov 2026 10:00:00 GMT";
     source := "Example Wire" |}.

Definition article_b : article :=
  {| title := "Labs hire"; link := "https://example.org/b";
     published := ""; source := "" |}.

(** The server answers at once and the document is well-formed XML. *)
Definition xml_world : World :=
  {| requests_get := fun _ _ _ _ => Return "<rss>...</rss>";
     ET_fromstring := fun _ => Return root;
     feedparser_parse := fun _ => Return entries |}.

(** The XML parser rejects the document; the feed library reads it. *)
Definition fallback_world : World :=
  {| requests_get := fun _ _ _ _ => Return "<rss>...&...</rss>";
     ET_fromstring := fun _ => Raise "not well-formed (invalid token)";
     feedparser_parse := fun _ => Return entries |}.

(** Neither parser reads the document. *)
Definition unparsable_world : World :=
  {| requests_get := fun _ _ _ _ => Return "garbage";
     ET_fromstring := fun _ => Raise "syntax error: line 1, column 0";
     feedparser_parse := fun _ => Raise "No module named 'feedparser'" |}.

(** Every request fails, each time differently. *)
Definition offline_world : World :=
  {| requests_get := fun n _ _ _ =>
       match n with
       | O => Raise "timed out"
       | S O => Raise "503 Server Error"
       | _ => Raise "connection refused"
       end;
     ET_fromstring := fun _ => Return root;
     feedparser_parse := fun _ => Return entries |}.

End SampleFeed.

(* ================================================================= *)
(** ** Further predicates *)

Definition first_char (s : string) : option ascii :=
  match s with
  | EmptyString => None
  | String c _ => Some c
  end.

Fixpoint last_char (s : string) : option ascii :=
  match s with
  | EmptyString => None
  | String c EmptyString => Some c
  | String _ r => last_char r
  end.

(** No white space at either end. *)
Definition trimmed (s : string) : Prop :=
  (forall c, first_char s = Some c -> PyStr.isspace c = false)
  /\ (forall c, last_char s = Some c -> PyStr.isspace c = false).

(** Only white space (or nothing at all). *)
Definition blank (s : string) : Prop :=
  PyStr.forall_chars PyStr.isspace s = true.

Definition hex_value (c : ascii) : N :=
  if PyStr.isdigit c then (PyStr.code c - 48)%N else (PyStr.code c - 55)%N.

(** A decoder for [quote_plus], used to show that the encoding loses
    nothing: [+] is a space and [%XY] the byte with that code. *)
Fixpoint unquote_plus (s : string) : string :=
  match s with
  | EmptyString => EmptyString
  | String c r =>
      if Url.is_char "%" c then
        match r with
        | String h (String l r') =>
            String (ascii_of_N (16 * hex_value h + hex_value l))
                   (unquote_plus r')
        | _ => String c (unquote_plus r)
        end
      else String (if Url.is_char "+" c then " "%char else c) (unquote_plus r)
  end.

(** What parsing makes of a response text: the XML strategy if the
    text is well-formed, otherwise the feed library, otherwise a parse
    error. *)
Definition parse_result (w : World) (xml_text : string) (max_articles : Z)
  : list article * option string :=
  match ET_fromstring w xml_text with
  | Return root =>
      finish (xml_loop (article_cap max_articles) (findall_items root) [])
  | Raise _ =>
      match feedparser_parse w xml_text with
      | Return entries =>
          finish (entries_loop (py_take (article_cap max_articles) entries) [])
      | Raise e2 => ([], Some ("Parse error: " ++ e2))
      end
  end.

(** Every field of an article is free of white space at its ends. *)
Definition article_trimmed (a : article) : Prop :=
  trimmed (title a) /\ trimmed (link a)
  /\ trimmed (published a) /\ trimmed (source a).

Module SampleMore.

(** A well-formed feed without any item. *)
Definition empty_root : element :=
  Element "rss" None
    [Element "channel" None [SampleFeed.leaf "title" "feed"]].

(** The first request times out, the second is answered. *)
Definition flaky_world : World :=
  {| requests_get := fun n _ _ _ =>
       match n with
       | O => Raise "timed out"
       | _ => Return "<rss>...</rss>"
       end;
     ET_fromstring := fun _ => Return SampleFeed.root;
     feedparser_parse := fun _ => Raise "unused" |}.

(** The server answers with a feed that has no item; the feed library
    would report entries if it were asked. *)
Definition empty_world : World :=
  {| requests_get := fun _ _ _ _ => Return "<rss><channel/></rss>";
     ET_fromstring := fun _ => Return empty_root;
     feedparser_parse := fun _ => Return SampleFeed.entries |}.

End SampleMore.

(** One of the three labels. *)
Definition three_way (lbl : string) : Prop :=
  lbl = "positive" \/ lbl = "negative" \/ lbl = "neutral".

(** A score the pages can count: it has a label, one of the three. *)
Definition countable (r : dict) : Prop :=
  exists lbl, dict_get "label" r = Some (VStr lbl) /\ three_way lbl.

(** [x] may stand before [y] in a ranking: its count is not smaller. *)
Definition by_count_desc (x y : string * Z) : Prop := snd y <= snd x.

(** The count a counter holds for a word; [0] when it has none. *)
Fixpoint counter_get (w : string) (cnt : list (string * Z)) : Z :=
  match cnt with
  | [] => 0
  | (k, n) :: r => if String.eqb k w then n else counter_get w r
  end.

(** How often a word occurs in a list. *)
Definition occurrences (w : string) (tokens : list string) : Z :=
  Z.of_nat (count_occ string_dec tokens w).

(** A lower-case letter or a digit. *)
Definition lower_alnum (c : ascii) : bool :=
  (PyStr.isdigit c || PyStr.islower c)%bool.

(** A term fit for the keyword chart: lower-case letters and digits
    only, at least three of them, and no filler word. *)
Definition clean_term (w : string) : Prop :=
  PyStr.forall_chars lower_alnum w = true
  /\ is_filler w = false
  /\ (3 <= String.length w)%nat.

(** The text, [None] counting as empty, has ASCII characters only
    ([str.isascii]). *)
Definition ascii_text (t : option string) : Prop :=
  PyStr.forall_chars (fun c => (PyStr.code c <? 128)%N) (PyStr.or_empty t)
  = true.

Definition no_upper (s : string) : Prop :=
  PyStr.forall_chars (fun c => negb (PyStr.isupper c)) s = true.

(** The text has no line feed. *)
Definition single_line (s : string) : Prop :=
  PyStr.exists_char (Ascii.eqb newline) s = false.

(** The three clause breaks a summary may be cut at. *)
Definition clause_breaks : list string := [". "; "; "; ", "].

(** The text reads [sep] at position [i]. *)
Definition occurs_at (sep t : string) (i : Z) : Prop :=
  exists before after,
    t = before ++ sep ++ after /\ Z.of_nat (String.length before) = i.

(** A clause break at position [i] that ends within the first
    [max_chars] characters. *)
Definition break_within (t : string) (max_chars i : Z) : Prop :=
  exists sep,
    In sep clause_breaks /\ occurs_at sep t i
    /\ i + Z.of_nat (String.length sep) <= max_chars.

Module SampleText.

(** 86 characters, with a comma at position 59 and no other break. *)
Definition long_summary : string :=
  "The new model beats the old one on every benchmark we tried, and it is cheaper to run".

(** A text whose only early break comes before position 40. *)
Definition early_break : string :=
  "Chips, which nobody expected to matter this much again so soon after the last cycle".

End SampleText.

(** Where [summarize_text] cuts a text that is too long. *)
Definition cut_at (t : string) (max_chars : Z) : Z :=
  if clause_break t max_chars <? 40 then max_chars
  else clause_break t max_chars.

(* ================================================================= *)
(** ** The daily streak: runs and predicates *)

(** The file records a visit on day [d] with a streak of [n]. *)
Definition recorded (f : stored) (d : string) (n : Z) : Prop :=
  exists m,
    f = Holds (JObject m)
    /\ json_get "last_date" m = Some (JStr d)
    /\ json_get "streak" m = Some (JInt n).


(** The data directory can be made and the streak file written. *)
Definition writable (d : disk) : Prop :=
  mkdir_error d = None /\ write_error d = None.

(** The disk with another streak file. *)
Definition with_file (d : disk) (f : stored) : disk :=
  {| mkdir_error := mkdir_error d;
     streak_file := f;
     write_error := write_error d |}.


(** What [data.get(k)] gives on the file, where the file holds an
    object. *)
Definition stored_get (k : string) (f : stored) : option json :=
  match _load_json f with
  | JObject d => json_get k d
  | _ => None
  end.

Section StreakRuns.

Variable int_of_str : string -> outcome Z.
Variable yesterday : string -> outcome string.



End StreakRuns.


Module SampleStreak.

Definition no_int : string -> outcome Z :=
  fun s => Raise ("invalid literal for int() with base 10: '" ++ s ++ "'").

(** The first days of May 2024. *)
Definition calendar (d : string) : outcome string :=
  if String.eqb d "2024-05-02" then Return "2024-05-01"
  else if String.eqb d "2024-05-03" then Return "2024-05-02"
  else if String.eqb d "2024-05-04" then Return "2024-05-03"
  else Raise "day is out of range".


(** A disk on which everything succeeds, with the given streak file. *)
Definition healthy (f : stored) : disk :=
  {| mkdir_error := None; streak_file := f; write_error := None |}.

(** A file written on the first of May, with a key of its own. *)
Definition may_first : stored :=
  Holds (JObject [("theme", JStr "dark"); ("streak", JInt 4);
                  ("last_date", JStr "2024-05-01")]).


End SampleStreak.

(* ================================================================= *)
(** ** Sentiment: properties *)

Section SentimentFacts.

Lemma analyze_loop_map (sia : option analyzer) (texts : list (option string)) :
  forall results,
    analyze_loop sia texts results
    = (results ++ map (analyze_one sia) texts)%list.
Proof.
  induction texts as [|t rest IH]; intros results; simpl.
  - now rewrite app_nil_r.
  - rewrite IH, <- app_assoc. reflexivity.
Qed.

Lemma analyze_sentiment_batch_map cls texts :
  analyze_sentiment_batch cls texts = map (analyze_one (_init_vader cls)) texts.
Proof.
  unfold analyze_sentiment_batch. now rewrite analyze_loop_map.
Qed.

(** No double is both above [0.2] and below [-0.2]: the comparison
    with a positive constant fails on every negative number, the one
    with a negative constant on every positive one, and both on NaN. *)
Lemma below_excludes_above (c : float) :
  (c <? -0.2)%float = true -> (0.2 <? c)%float = false.
Proof.
  rewrite !ltb_spec.
  change (Prim2SF (-0.2)%float) with (S754_finite true 7205759403792794 (-55)).
  change (Prim2SF 0.2%float) with (S754_finite false 7205759403792794 (-55)).
  destruct (Prim2SF c) as [s|s| |s m e]; try destruct s;
    unfold SFltb, SFcompare; try reflexivity; try discriminate.
Qed.

Lemma dict_get_label (p : polarity) (lbl : string) :
  let d := dict_set "label" (VStr lbl) (polarity_dict p) in
  dict_get "compound" d = Some (VFloat (compound p))
  /\ dict_get "label" d = Some (VStr lbl).
Proof. split; reflexivity. Qed.

Lemma sentiment_label_labelled (c : float) : labelled c (sentiment_label c).
Proof.
  unfold labelled, sentiment_label.
  destruct (0.2 <? c)%float eqn:Hpos;
    [ | destruct (c <? -0.2)%float eqn:Hneg ];
    repeat split; intros; try reflexivity; try discriminate;
    try (match goal with H : _ /\ _ |- _ => destruct H end; discriminate).
  match goal with
  | H : (c <? -0.2)%float = true |- _ =>
      apply below_excludes_above in H; congruence
  end.
Qed.

Lemma analyze_one_well_labelled sia t : well_labelled (analyze_one sia t).
Proof.
  destruct sia as [score|]; simpl.
  - set (p := score (PyStr.or_empty t)).
    exists (compound p), (sentiment_label (compound p)).
    destruct (dict_get_label p (sentiment_label (compound p))) as [Hc Hl].
    split; [exact Hc|]. split; [exact Hl|]. apply sentiment_label_labelled.
  - exists 0.0%float, "neutral". split; [reflexivity|]. split; [reflexivity|].
    apply (sentiment_label_labelled 0.0%float).
Qed.

End SentimentFacts.

(** C2. Every result of [analyze_sentiment_batch] carries a compound score
    and a label such that the label is "positive" exactly when the score
    is above 0.2, "negative" exactly when it is below -0.2 and "neutral"
    otherwise; the scores 0.2 and -0.2 themselves are labelled "neutral",
    0.5 "positive", -0.5 "negative" and 0.0 "neutral". *)
Theorem sentiment_label_thresholds :
  (forall cls texts, Forall well_labelled (analyze_sentiment_batch cls texts))
  /\ sentiment_label 0.2 = "neutral"
  /\ sentiment_label (-0.2) = "neutral"
  /\ sentiment_label 0.5 = "positive"
  /\ sentiment_label (-0.5) = "negative"
  /\ sentiment_label 0.0 = "neutral"
  /\ (forall t,
        analyze_sentiment_batch
          (Some (Return (Sample.constant_analyzer 0.2))) [t]
        = [[("neg", VFloat 0); ("neu", VFloat 1); ("pos", VFloat 0);
            ("compound", VFloat 0.2); ("label", VStr "neutral")]]).
Proof.
  split.
  - intros cls texts. rewrite analyze_sentiment_batch_map.
    apply Forall_forall. intros r Hr. apply in_map_iff in Hr.
    destruct Hr as [t [<- _]]. apply analyze_one_well_labelled.
  - repeat split; reflexivity.
Qed.

(** C8. When no analyzer is available ([_init_vader] gives [None]), the
    batch returns one result per text, in order, and each of them is
    [{compound: 0.0, label: "neutral"}] whatever the text is; the call
    returns normally. *)
Theorem degraded_sentiment_neutral :
  forall cls texts,
    _init_vader cls = None ->
    List.length (analyze_sentiment_batch cls texts) = List.length texts
    /\ analyze_sentiment_batch cls texts
       = map (fun _ => neutral_result) texts
    /\ (forall i t, nth_error texts i = Some t ->
          nth_error (analyze_sentiment_batch cls texts) i = Some neutral_result)
    /\ neutral_result = [("compound", VFloat 0.0); ("label", VStr "neutral")].
Proof.
  intros cls texts Hnone.
  rewrite analyze_sentiment_batch_map, Hnone. simpl.
  split; [apply length_map|]. split; [reflexivity|]. split; [|reflexivity].
  intros i t Hi. rewrite nth_error_map, Hi. reflexivity.
Qed.

Lemma degraded_sentiment_neutral_witness :
  _init_vader (Some (Raise "LookupError: vader_lexicon")) = None
  /\ analyze_sentiment_batch (Some (Raise "LookupError: vader_lexicon"))
       Sample.mixed_texts
     = [neutral_result; neutral_result; neutral_result].
Proof.
  split; [reflexivity|].
  exact (proj1 (proj2 (degraded_sentiment_neutral
                         (Some (Raise "LookupError: vader_lexicon"))
                         Sample.mixed_texts eq_refl))).
Defined.

(* ================================================================= *)
(** ** Keywords: properties *)

Section KeywordFacts.

Lemma keep_words_long ws :
  forall tokens, Forall long_enough tokens ->
                 Forall long_enough (keep_words ws tokens).
Proof.
  induction ws as [|w0 rest IH]; intros tokens Htok; simpl; [assumption|].
  destruct (Z.of_nat (String.length (PyStr.filter_chars PyStr.isalnum w0)) <? 3)
    eqn:Hlen; simpl.
  - now apply IH.
  - destruct (is_filler _); apply IH; [assumption|].
    apply Forall_app. split; [assumption|].
    constructor; [|constructor]. unfold long_enough.
    apply Z.ltb_ge in Hlen. lia.
Qed.

Lemma collect_tokens_long texts :
  forall tokens, Forall long_enough tokens ->
                 Forall long_enough (collect_tokens texts tokens).
Proof.
  induction texts as [|t rest IH]; intros tokens Htok; simpl; [assumption|].
  apply IH. now apply keep_words_long.
Qed.

Lemma counter_add_keys w cnt :
  forall k, In k (map fst (counter_add w cnt)) -> k = w \/ In k (map fst cnt).
Proof.
  induction cnt as [|[k0 n0] r IH]; intros k; simpl.
  - intros [<-|[]]. now left.
  - destruct (String.eqb k0 w); simpl.
    + intros [<-|H]; right; [now left | now right].
    + intros [<-|H]; [right; now left|].
      destruct (IH _ H) as [->|H']; [now left | right; now right].
Qed.

Lemma Counter_keys tokens :
  forall k, In k (map fst (Counter tokens)) -> In k tokens.
Proof.
  unfold Counter.
  enough (G : forall cnt k,
             In k (map fst (fold_left (fun c w => counter_add w c) tokens cnt))
             -> In k tokens \/ In k (map fst cnt)).
  { intros k Hk. destruct (G [] k Hk) as [H|[]]. exact H. }
  induction tokens as [|w rest IH]; intros cnt k; simpl.
  - now right.
  - intros Hk. destruct (IH _ _ Hk) as [H|H]; [left; now right|].
    destruct (counter_add_keys _ _ _ H) as [->|H']; [left; now left|now right].
Qed.

Lemma insert_desc_In x l :
  forall e, In e (insert_desc x l) -> e = x \/ In e l.
Proof.
  induction l as [|y r IH]; intros e; simpl.
  - intros [<-|[]]. now left.
  - destruct (snd y <=? snd x); simpl.
    + intros [<-|H]; [now left | now right].
    + intros [<-|H]; [right; now left|].
      destruct (IH _ H) as [->|H']; [now left | right; now right].
Qed.

Lemma sort_desc_In l : forall e, In e (sort_desc l) -> In e l.
Proof.
  induction l as [|x r IH]; intros e; simpl; [tauto|].
  intros H. destruct (insert_desc_In _ _ _ H) as [->|H']; [now left|].
  right. now apply IH.
Qed.

Lemma firstn_incl_In (A : Type) (n : nat) (l : list A) :
  forall e, In e (firstn n l) -> In e l.
Proof.
  intros e H. rewrite <- (firstn_skipn n l). apply in_or_app. now left.
Qed.

Lemma extract_keywords_fallback texts top_k :
  extract_keywords None texts top_k
  = Return (most_common top_k (Counter (collect_tokens texts []))).
Proof.
  destruct texts as [|t rest]; [|reflexivity].
  cbn. unfold most_common. cbn. now rewrite firstn_nil.
Qed.

Lemma fallback_terms_long texts top_k :
  Forall (fun e => long_enough (fst e))
         (most_common top_k (Counter (collect_tokens texts []))).
Proof.
  apply Forall_forall. intros e He.
  unfold most_common in He.
  apply firstn_incl_In, sort_desc_In in He.
  assert (Hk : In (fst e) (map fst (Counter (collect_tokens texts []))))
    by now apply in_map.
  apply Counter_keys in Hk.
  pose proof (collect_tokens_long texts (Forall_nil _)) as Hall.
  rewrite Forall_forall in Hall. now apply Hall.
Qed.

Lemma fallback_length texts top_k :
  Z.of_nat (List.length (most_common top_k (Counter (collect_tokens texts []))))
  <= Z.max 0 top_k.
Proof.
  unfold most_common.
  pose proof (firstn_le_length (Z.to_nat top_k)
                (sort_desc (Counter (collect_tokens texts [])))).
  lia.
Qed.

End KeywordFacts.

(** C3, as the code has it. In the fallback strategy the example texts
    with [top_k = 2] give [("helps", 2); ("doctors", 2)]: at most two
    entries, by decreasing count, equal counts in first-seen order. The
    term "ai" is not among them: a token shorter than three characters is
    dropped before counting, for these and for all texts. *)
Theorem fallback_keywords_example :
  (exists r,
     extract_keywords None Sample.keyword_texts 2 = Return r
     /\ r = [("helps", 2); ("doctors", 2)]
     /\ (List.length r <= 2)%nat
     /\ ~ In "ai" (map fst r)
     /\ ranked_above "helps" "doctors" r)
  /\ (forall texts top_k,
        exists r,
          extract_keywords None texts top_k = Return r
          /\ Forall (fun e => (3 <= String.length (fst e))%nat) r
          /\ Z.of_nat (List.length r) <= Z.max 0 top_k).
Proof.
  split.
  { eexists. split; [reflexivity|]. split; [reflexivity|].
    split; [vm_compute; lia|].
    split.
    { vm_compute. intros [H|[H|[]]]; discriminate. }
    exists 0%nat. split; [reflexivity|].
    intros [|[|[|j]]] Hj; vm_compute in Hj; try discriminate; lia. }
  intros texts top_k. eexists.
  split; [apply extract_keywords_fallback|].
  split; [apply fallback_terms_long | apply fallback_length].
Qed.

(** C3, as the specification states it, fails: "ai" is not ranked at all. *)
Lemma fallback_keywords_ai_not_ranked :
  ~ (exists r,
       extract_keywords None Sample.keyword_texts 2 = Return r
       /\ (List.length r <= 2)%nat
       /\ ranked_above "ai" "helps" r
       /\ ranked_above "ai" "doctors" r).
Proof.
  intros [r [Hr [_ [[i [Hi _]] _]]]].
  injection Hr as <-.
  destruct i as [|[|[|i]]]; vm_compute in Hi; discriminate.
Qed.

(* ================================================================= *)
(** ** Buzz meter: properties *)

Section BuzzFacts.

Lemma buzz_exact_div (n : Z) :
  buzz_exact n = Z.max 5 (Z.min 100 (100 * n / 40)).
Proof.
  unfold buzz_exact, Qfloor, Qmult, Qdiv, Qinv, inject_Z. simpl.
  now rewrite Z.mul_1_r.
Qed.

Lemma buzz_exact_range (n : Z) : 5 <= buzz_exact n <= 100.
Proof. rewrite buzz_exact_div. lia. Qed.

Lemma counts_from_In (len : nat) :
  forall start n,
    start <= n < start + Z.of_nat len -> In n (counts_from start len).
Proof.
  induction len as [|k IH]; intros start n Hn; simpl.
  - lia.
  - destruct (Z.eq_dec start n) as [->|Hne]; [now left|].
    right. apply IH. lia.
Qed.

Lemma buzz_checked_all :
  forallb buzz_agrees (counts_upto buzz_checked_bound) = true.
Proof. vm_compute. reflexivity. Qed.

Lemma buzz_float_exact (n : Z) :
  0 <= n <= buzz_checked_bound -> buzz_of_count n = Some (buzz_exact n).
Proof.
  intros Hn.
  pose proof buzz_checked_all as Hall.
  rewrite forallb_forall in Hall.
  assert (Hin : In n (counts_upto buzz_checked_bound)).
  { unfold counts_upto. apply counts_from_In. lia. }
  specialize (Hall n Hin). unfold buzz_agrees in Hall.
  destruct (buzz_of_count n) as [v|]; [|discriminate].
  apply Z.eqb_eq in Hall. now subst.
Qed.

Lemma digits2_pos_bounds (p : positive) :
  2 ^ (Zpos (digits2_pos p) - 1) <= Zpos p < 2 ^ Zpos (digits2_pos p).
Proof.
  induction p as [p IH|p IH|]; cbn [digits2_pos].
  - rewrite Pos2Z.inj_succ.
    replace (Z.succ (Zpos (digits2_pos p)) - 1) with (Z.succ (Zpos (digits2_pos p) - 1)) by lia.
    rewrite !Z.pow_succ_r by lia. lia.
  - rewrite Pos2Z.inj_succ.
    replace (Z.succ (Zpos (digits2_pos p)) - 1) with (Z.succ (Zpos (digits2_pos p) - 1)) by lia.
    rewrite !Z.pow_succ_r by lia. lia.
  - cbn. lia.
Qed.

Lemma digits2_pos_unique (p : positive) (d : Z) :
  2 ^ (d - 1) <= Zpos p < 2 ^ d -> Zpos (digits2_pos p) = d.
Proof.
  intros [Hlo Hhi]. pose proof (digits2_pos_bounds p) as [Blo Bhi].
  assert (0 < d).
  { destruct (Z_lt_le_dec 0 d) as [|Hd]; [assumption|].
    assert (2 ^ d <= 2 ^ 0) by (destruct (Z.eq_dec d 0) as [->|]; [lia|rewrite Z.pow_neg_r by lia; cbn; lia]).
    cbn in *. lia. }
  assert (d - 1 < Zpos (digits2_pos p)).
  { apply (Z.pow_lt_mono_r_iff 2); lia. }
  assert (Zpos (digits2_pos p) - 1 < d).
  { apply (Z.pow_lt_mono_r_iff 2); lia. }
  lia.
Qed.

Lemma shr_1_m (r : shr_record) :
  0 <= shr_m r -> shr_m (shr_1 r) = shr_m r / 2.
Proof.
  destruct r as [m b s]. cbn [shr_m]. intros Hm.
  destruct m as [|[p|p|]|p]; cbn [shr_1 shr_m]; try lia; try reflexivity.
  - apply Z.div_unique with 1; lia.
  - apply Z.div_unique with 0; lia.
Qed.

Lemma iter_shr_1_m (p : positive) :
  forall r, 0 <= shr_m r ->
    shr_m (iter_pos shr_1 p r) = shr_m r / 2 ^ Zpos p.
Proof.
  induction p as [p IH|p IH|]; intros r Hr; cbn [iter_pos].
  - assert (H1 : 0 <= shr_m (shr_1 r)) by (rewrite shr_1_m by lia; apply Z.div_pos; lia).
    assert (H2 : 0 <= shr_m (iter_pos shr_1 p (shr_1 r)))
      by (rewrite IH by lia; apply Z.div_pos; lia).
    rewrite IH, IH, shr_1_m by lia.
    rewrite !Z.div_div by lia.
    f_equal.
    replace (Zpos p~1) with (1 + (Zpos p + Zpos p)) by lia.
    rewrite !Z.pow_add_r by lia. lia.
  - assert (H2 : 0 <= shr_m (iter_pos shr_1 p r))
      by (rewrite IH by lia; apply Z.div_pos; lia).
    rewrite IH, IH by lia.
    rewrite !Z.div_div by lia.
    f_equal.
    replace (Zpos p~0) with (Zpos p + Zpos p) by lia.
    rewrite !Z.pow_add_r by lia. lia.
  - rewrite shr_1_m by lia. reflexivity.
Qed.

Lemma round_nearest_even_bounds (m : Z) (l : location) :
  m <= round_nearest_even m l <= m + 1.
Proof.
  destruct l as [|[]]; cbn; try lia. destruct (Z.even m); lia.
Qed.

Lemma shr_record_of_loc_m (m : Z) (l : location) :
  shr_m (shr_record_of_loc m l) = m.
Proof. destruct l as [|[]]; reflexivity. Qed.

Lemma shr_spec (r : shr_record) (e n : Z) :
  0 <= shr_m r -> 0 <= n ->
  shr_m (fst (shr r e n)) = shr_m r / 2 ^ n /\ snd (shr r e n) = e + n.
Proof.
  intros Hr Hn. destruct n as [|q|q]; cbn [shr fst snd]; [| |lia].
  - rewrite Z.div_1_r. lia.
  - split; [now apply iter_shr_1_m|reflexivity].
Qed.

Lemma fexp_normal (x : Z) : -1021 <= x -> fexp prec emax x = x - 53.
Proof. intros Hx. unfold fexp, emin, prec, emax. lia. Qed.

Lemma round_aux_normal (p : positive) (ex : Z) (lx : location) :
  53 <= Zpos (digits2_pos p) ->
  -1021 <= Zpos (digits2_pos p) + ex <= 1023 ->
  exists m e,
    binary_round_aux prec emax false (Zpos p) ex lx = S754_finite false m e
    /\ 2 ^ 52 <= Zpos m < 2 ^ 53
    /\ ((e = ex + (Zpos (digits2_pos p) - 53)
         /\ Zpos p / 2 ^ (Zpos (digits2_pos p) - 53) <= Zpos m)
        \/ e = ex + (Zpos (digits2_pos p) - 53) + 1).
Proof.
  set (d := Zpos (digits2_pos p)). intros Hd Hde.
  pose proof (digits2_pos_bounds p) as [Blo Bhi]. fold d in Blo, Bhi.
  unfold binary_round_aux, shr_fexp.
  cbn [Zdigits2]. fold d. rewrite fexp_normal by lia.
  replace (d + ex - 53 - ex) with (d - 53) by lia.
  destruct (shr (shr_record_of_loc (Zpos p) lx) ex (d - 53)) as [mrs1 e1] eqn:E1.
  pose proof (@shr_spec (shr_record_of_loc (Zpos p) lx) ex (d - 53)) as S1.
  rewrite shr_record_of_loc_m, E1 in S1. cbn [fst snd] in S1.
  destruct S1 as [Hm1 He1]; [lia|lia|].
  set (m1 := Zpos p / 2 ^ (d - 53)) in *.
  assert (Hm1lo : 2 ^ 52 <= m1).
  { apply Z.div_le_lower_bound; [lia|].
    rewrite <- Z.pow_add_r by lia. replace (d - 53 + 52) with (d - 1) by lia.
    exact Blo. }
  assert (Hm1hi : m1 < 2 ^ 53).
  { apply Z.div_lt_upper_bound; [lia|].
    rewrite <- Z.pow_add_r by lia. replace (d - 53 + 53) with d by lia.
    exact Bhi. }
  pose proof (round_nearest_even_bounds (shr_m mrs1) (loc_of_shr_record mrs1)) as Hr.
  set (m2 := round_nearest_even (shr_m mrs1) (loc_of_shr_record mrs1)) in *.
  rewrite Hm1 in Hr.
  destruct m2 as [|q2|q2] eqn:Em2; [lia| |lia].
  cbn [Zdigits2].
  destruct (Z.eq_dec (Zpos q2) (2 ^ 53)) as [Htop|Hntop].
  - assert (Hdq : Zpos (digits2_pos q2) = 54)
      by (apply digits2_pos_unique; rewrite Htop; cbn; lia).
    rewrite Hdq, fexp_normal by lia.
    replace (54 + e1 - 53 - e1) with 1 by lia.
    cbn [shr shr_record_of_loc iter_pos].
    rewrite Htop. cbn [shr_1 shr_m Z.pow Z.pow_pos Pos.iter Z.mul Pos.mul].
    assert (Hle : (e1 + 1 <=? emax - prec) = true)
      by (apply Z.leb_le; unfold emax, prec; lia).
    rewrite Hle. eexists _, _. split; [reflexivity|].
    split; [cbn; lia|]. right. lia.
  - assert (Hdq : Zpos (digits2_pos q2) = 53)
      by (apply digits2_pos_unique; change (53 - 1) with 52; lia).
    rewrite Hdq, fexp_normal by lia.
    replace (53 + e1 - 53 - e1) with 0 by lia.
    cbn [shr shr_record_of_loc shr_m].
    assert (Hle : (e1 <=? emax - prec) = true)
      by (apply Z.leb_le; unfold emax, prec; lia).
    rewrite Hle. exists q2, e1. split; [reflexivity|].
    split; [lia|]. left. split; lia.
Qed.

Lemma pos_iter_xO (k p : positive) :
  Zpos (Pos.iter xO p k) = Zpos p * 2 ^ Zpos k.
Proof.
  revert p. induction k as [k IH|k IH|]; intros p; cbn [Pos.iter].
  - rewrite Pos2Z.inj_xO, !IH.
    replace (Zpos k~1) with (1 + (Zpos k + Zpos k)) by lia.
    rewrite !Z.pow_add_r by lia. lia.
  - rewrite !IH.
    replace (Zpos k~0) with (Zpos k + Zpos k) by lia.
    rewrite !Z.pow_add_r by lia. lia.
  - rewrite Pos2Z.inj_xO. lia.
Qed.

Lemma of_int_normal (n : Z) :
  64 <= n < 2 ^ 63 -> normal_pos (Prim2SF (PyFloat.of_int n)) (-46) 11.
Proof.
  intros Hn. unfold PyFloat.of_int.
  rewrite of_uint63_spec, Uint63.of_Z_spec.
  rewrite Z.mod_small by (change Uint63Axioms.wB with (2 ^ 63); lia).
  destruct n as [|p|p]; [lia| |lia].
  cbn [binary_normalize]. unfold binary_round.
  pose proof (digits2_pos_bounds p) as [Blo Bhi].
  set (d := Zpos (digits2_pos p)) in *.
  assert (Hd : 7 <= d <= 63).
  { split.
    - assert (6 < d); [|lia]. apply (Z.pow_lt_mono_r_iff 2); lia.
    - assert (d - 1 < 63); [|lia]. apply (Z.pow_lt_mono_r_iff 2); lia. }
  rewrite fexp_normal by lia. unfold shl_align.
  replace (d + 0 - 53 - 0) with (d - 53) by lia.
  destruct (d - 53) as [|k|k] eqn:Ek.
  - destruct (@round_aux_normal p 0 loc_Exact) as [m [e [Hr [Hm He]]]];
      fold d; [lia|lia|].
    exists m, e. split; [exact Hr|]. split; [exact Hm|]. fold d in He. lia.
  - destruct (@round_aux_normal p 0 loc_Exact) as [m [e [Hr [Hm He]]]];
      fold d; [lia|lia|].
    exists m, e. split; [exact Hr|]. split; [exact Hm|]. fold d in He. lia.
  - pose proof (pos_iter_xO k p) as Hz.
    set (mz := Pos.iter xO p k) in *.
    assert (Hk : Zpos k = 53 - d) by lia.
    assert (Hmz : 2 ^ 52 <= Zpos mz < 2 ^ 53).
    { rewrite Hz, Hk. split.
      - replace 52 with (d - 1 + (53 - d)) by lia.
        rewrite Z.pow_add_r by lia. apply Z.mul_le_mono_nonneg_r; lia.
      - replace 53 with (d + (53 - d)) at 2 by lia.
        rewrite Z.pow_add_r by lia. apply Z.mul_lt_mono_pos_r; lia. }
    assert (Hdz : Zpos (digits2_pos mz) = 53)
      by (apply digits2_pos_unique; change (53 - 1) with 52; exact Hmz).
    replace (d + 0 - 53) with (Zneg k) by lia.
    destruct (@round_aux_normal mz (Zneg k) loc_Exact) as [m [e [Hr [Hm He]]]];
      [lia|lia|].
    exists m, e. split; [exact Hr|]. split; [exact Hm|]. rewrite Hdz in He. lia.
Qed.

Lemma div40_normal (x : spec_float) :
  normal_pos x (-46) 11 ->
  normal_pos (SFdiv prec emax x (S754_finite false 5629499534213120 (-47)))
             (-52) 7.
Proof.
  intros [m [e [-> [Hm He]]]].
  assert (Hdm : Zpos (digits2_pos m) = 53)
    by (apply digits2_pos_unique; change (53 - 1) with 52; exact Hm).
  unfold SFdiv, SFdiv_core_binary. cbn [Zdigits2 xorb].
  rewrite Hdm.
  change (Zpos (digits2_pos 5629499534213120)) with 53.
  rewrite fexp_normal by lia.
  replace (Z.min (53 + e - (53 + -47) - 53) (e - -47)) with (e - 6) by lia.
  replace (e - -47 - (e - 6)) with 53 by lia.
  rewrite Z.shiftl_mul_pow2 by lia.
  change (2 ^ 53) with 9007199254740992 in *.
  change (2 ^ 52) with 4503599627370496 in *.
  pose proof (Z_div_mod (Zpos m * 9007199254740992) 5629499534213120 eq_refl)
    as Hdiv.
  destruct (Z.div_eucl (Zpos m * 9007199254740992) 5629499534213120)
    as [q r].
  destruct Hdiv as [Hq Hr].
  destruct q as [|pq|pq]; [lia| |lia].
  assert (Hpq : 2 ^ 52 <= Zpos pq < 2 ^ 54)
    by (change (2 ^ 52) with 4503599627370496;
        change (2 ^ 54) with 18014398509481984; lia).
  assert (Hdq : Zpos (digits2_pos pq) = 53 \/ Zpos (digits2_pos pq) = 54).
  { destruct (Z_lt_le_dec (Zpos pq) (2 ^ 53)) as [Hlt|Hge].
    - left. apply digits2_pos_unique. change (53 - 1) with 52. lia.
    - right. apply digits2_pos_unique. change (54 - 1) with 53. lia. }
  destruct (@round_aux_normal pq (e - 6)
              (new_location 5629499534213120 r))
    as [m' [e' [Hres [Hm' He']]]]; [lia|lia|].
  exists m', e'. split; [exact Hres|].
  change (2 ^ 53) with 9007199254740992 in Hm'.
  change (2 ^ 52) with 4503599627370496 in Hm'.
  split; [exact Hm'|]. lia.
Qed.

Lemma mul100_large (y : spec_float) :
  normal_pos y (-52) 7 ->
  exists m e,
    SFmul prec emax (S754_finite false 7036874417766400 (-46)) y
    = S754_finite false m e
    /\ -46 <= e <= 15
    /\ 100 * 2 ^ 46 <= Zpos m * 2 ^ (e + 46).
Proof.
  intros [m [e [-> [Hm He]]]].
  unfold SFmul. cbn [xorb].
  set (P := (7036874417766400 * m)%positive).
  assert (HP : Zpos P = 7036874417766400 * Zpos m) by reflexivity.
  assert (HPb : 2 ^ 104 <= Zpos P < 2 ^ 106).
  { rewrite HP. change (2 ^ 52) with 4503599627370496 in Hm.
    change (2 ^ 53) with 9007199254740992 in Hm.
    change (2 ^ 104) with 20282409603651670423947251286016.
    change (2 ^ 106) with 81129638414606681695789005144064. lia. }
  assert (HdP : Zpos (digits2_pos P) = 105 \/ Zpos (digits2_pos P) = 106).
  { destruct (Z_lt_le_dec (Zpos P) (2 ^ 105)) as [Hlt|Hge].
    - left. apply digits2_pos_unique. change (105 - 1) with 104. lia.
    - right. apply digits2_pos_unique. change (106 - 1) with 105. lia. }
  destruct (@round_aux_normal P (-46 + e) loc_Exact)
    as [m' [e' [Hres [Hm' He']]]]; [lia|lia|].
  exists m', e'. split; [exact Hres|]. split; [lia|].
  assert (Hc : 100 * 2 ^ 46 = 7036874417766400) by reflexivity.
  destruct HdP as [HdP|HdP]; rewrite HdP in He'.
  - destruct He' as [[He' Hfl]|He'].
    + (* e' = e + 6, m' at least the constant *)
      assert (Hmc : 7036874417766400 <= Zpos m').
      { etransitivity; [|exact Hfl]. change (105 - 53) with 52.
        apply Z.div_le_lower_bound; [lia|]. rewrite HP.
        change (2 ^ 52) with 4503599627370496 in *. lia. }
      rewrite Hc.
      assert (1 <= 2 ^ (e' + 46)) by (apply (Z.pow_le_mono_r 2 0); lia).
      nia.
    + assert (H2 : 2 ^ 1 <= 2 ^ (e' + 46)) by (apply Z.pow_le_mono_r; lia).
      rewrite Hc. change (2 ^ 52) with 4503599627370496 in Hm'.
      change (2 ^ 1) with 2 in H2. nia.
  - assert (H2 : 2 ^ 1 <= 2 ^ (e' + 46)) by (apply Z.pow_le_mono_r; lia).
    rewrite Hc. change (2 ^ 52) with 4503599627370496 in Hm'.
    change (2 ^ 1) with 2 in H2. nia.
Qed.

Lemma buzz_float_saturated (n : Z) :
  64 <= n < 2 ^ 63 -> buzz_of_count n = Some 100.
Proof.
  intros Hn. unfold buzz_of_count, PyFloat.to_int, PyFloat.truediv.
  rewrite mul_spec, div_spec.
  change (Prim2SF 100) with (S754_finite false 7036874417766400 (-46)).
  change (Prim2SF (PyFloat.of_int 40))
    with (S754_finite false 5629499534213120 (-47)).
  destruct (@mul100_large _ (@div40_normal _ (@of_int_normal n Hn)))
    as [m [e [Hres [He Hv]]]].
  unfold SF64mul, SF64div. rewrite Hres.
  assert (Hge : 100 <= (if 0 <=? e then Zpos m * 2 ^ e
                        else Zpos m / 2 ^ (- e))).
  { destruct (0 <=? e) eqn:E.
    - apply Z.leb_le in E.
      rewrite Z.pow_add_r in Hv by lia. lia.
    - apply Z.leb_gt in E.
      apply Z.div_le_lower_bound; [apply Z.pow_pos_nonneg; lia|].
      replace 46 with (- e + (e + 46)) in Hv at 1 by lia.
      rewrite Z.pow_add_r in Hv by lia.
      assert (0 < 2 ^ (e + 46)) by (apply Z.pow_pos_nonneg; lia).
      nia. }
  f_equal. lia.
Qed.

Lemma buzz_float_any (n : Z) :
  0 <= n <= sys_maxsize -> buzz_of_count n = Some (buzz_exact n).
Proof.
  intros Hn. destruct (Z_le_gt_dec n buzz_checked_bound) as [Hs|Hl].
  - apply buzz_float_exact. lia.
  - unfold buzz_checked_bound in Hl. unfold sys_maxsize in Hn.
    rewrite buzz_float_saturated by lia.
    rewrite buzz_exact_div. f_equal.
    assert (100 <= 100 * n / 40) by (apply Z.div_le_lower_bound; lia).
    lia.
Qed.

End BuzzFacts.

(** C4, as the code has it. The formula truncates ([int]) where the
    specification rounds: for every list of articles, of any length [n]
    a list can have, the binary64 evaluation the code performs returns
    [max(5, min(100, floor(100 * n / 40)))]; the value lies in
    [5, 100]; 0, 20, 40 and 1000 articles give 5, 50, 100 and 100. The
    same expression read over the rationals has that value for every
    [n]. *)
Theorem buzz_meter_truncates :
  forall (A : Type) (articles : list A) (n : Z),
    n = Z.of_nat (List.length articles) ->
    buzz_exact n = Z.max 5 (Z.min 100 (100 * n / 40))
    /\ 5 <= buzz_exact n <= 100
    /\ (n <= sys_maxsize ->
        buzz_meter_value articles
        = Some (Z.max 5 (Z.min 100 (100 * n / 40))))
    /\ (forall v, buzz_meter_value articles = Some v -> 5 <= v <= 100)
    /\ buzz_of_count 0 = Some 5
    /\ buzz_of_count 20 = Some 50
    /\ buzz_of_count 40 = Some 100
    /\ buzz_of_count 1000 = Some 100.
Proof.
  intros A articles n Hn.
  split; [apply buzz_exact_div|]. split; [apply buzz_exact_range|].
  split.
  { intros Hb. unfold buzz_meter_value. rewrite <- Hn.
    rewrite <- buzz_exact_div. apply buzz_float_any. lia. }
  split.
  { intros v. unfold buzz_meter_value, buzz_of_count.
    destruct (PyFloat.to_int _) as [x|]; [|discriminate].
    intros [= <-]. lia. }
  repeat split; vm_compute; reflexivity.
Qed.

Lemma buzz_meter_truncates_witness :
  buzz_meter_value [tt; tt; tt; tt; tt; tt; tt] = Some 17
  /\ buzz_exact 7 = 17.
Proof.
  destruct (@buzz_meter_truncates unit [tt; tt; tt; tt; tt; tt; tt] 7 eq_refl)
    as [Hdiv [_ [Hfloat _]]].
  split.
  - rewrite Hfloat; [reflexivity | vm_compute; discriminate].
  - now rewrite Hdiv.
Defined.

(** C4, as the specification states it, fails at three articles: the
    code returns 7 where [round(7.5)] is 8. *)
Lemma buzz_three_articles_not_rounded :
  buzz_meter_value [tt; tt; tt] = Some 7
  /\ buzz_spec 3 = 8
  /\ buzz_meter_value [tt; tt; tt] <> Some (buzz_spec 3).
Proof.
  split; [vm_compute; reflexivity|]. split; [vm_compute; reflexivity|].
  vm_compute. discriminate.
Qed.

(* ================================================================= *)
(** ** Feed URL: properties *)

Section UrlFacts.

Lemma hex_digit_is_hex (n : N) : is_hex (Url.hex_digit n) = true.
Proof.
  destruct n as [|p]; [reflexivity|].
  do 4 (destruct p as [p|p|]; try reflexivity).
Qed.

Lemma hex_digit_not_space (n : N) : Ascii.eqb (Url.hex_digit n) " " = false.
Proof.
  destruct n as [|p]; [reflexivity|].
  do 4 (destruct p as [p|p|]; try reflexivity).
Qed.

Lemma always_safe_plain (c : ascii) :
  Url.always_safe c = true ->
  Url.is_char "%" c = false /\ Ascii.eqb c " " = false.
Proof.
  destruct c as [[] [] [] [] [] [] [] []]; vm_compute; intros H;
    (split; [reflexivity|reflexivity]) || discriminate.
Qed.

Lemma well_encoded_percent (c : ascii) (t : string) :
  well_encoded (Url.percent c ++ t) = well_encoded t.
Proof.
  unfold Url.percent. cbn [append well_encoded].
  change (Url.is_char "%" "%") with true. cbv iota.
  now rewrite !hex_digit_is_hex.
Qed.

Lemma well_encoded_safe (c : ascii) (t : string) :
  Url.always_safe c = true ->
  well_encoded (String c t) = well_encoded t.
Proof.
  intros Hc. destruct (always_safe_plain c Hc) as [Hp _].
  cbn [well_encoded]. now rewrite Hp, Hc.
Qed.

Lemma replace_percent (c : ascii) (t : string) :
  Url.replace_char " " "+" (Url.percent c ++ t)
  = Url.percent c ++ Url.replace_char " " "+" t.
Proof.
  unfold Url.percent. cbn [append Url.replace_char].
  rewrite !hex_digit_not_space. reflexivity.
Qed.

Lemma quote_well_encoded (s : string) :
  well_encoded (Url.quote Url.always_safe s) = true.
Proof.
  induction s as [|c r IH]; [reflexivity|].
  cbn [Url.quote]. destruct (Url.always_safe c) eqn:Hc.
  - now rewrite well_encoded_safe.
  - now rewrite well_encoded_percent.
Qed.

Lemma quote_space_well_encoded (s : string) :
  well_encoded
    (Url.replace_char " " "+"
       (Url.quote (fun c => (Url.always_safe c || Url.is_char " " c)%bool) s))
  = true.
Proof.
  induction s as [|c r IH]; [reflexivity|].
  cbn [Url.quote].
  destruct (Url.always_safe c || Url.is_char " " c)%bool eqn:Hc.
  - cbn [Url.replace_char]. destruct (Ascii.eqb c " ") eqn:Hsp.
    + exact IH.
    + rewrite well_encoded_safe; [exact IH|].
      apply orb_true_iff in Hc. destruct Hc as [Hc|Hc]; [exact Hc|].
      unfold Url.is_char in Hc. rewrite Ascii.eqb_sym in Hc. congruence.
  - now rewrite replace_percent, well_encoded_percent.
Qed.

Lemma quote_plus_well_encoded (s : string) :
  well_encoded (Url.quote_plus s) = true.
Proof.
  unfold Url.quote_plus. destruct (PyStr.exists_char _ s).
  - apply quote_space_well_encoded.
  - apply quote_well_encoded.
Qed.

Lemma query_param_well_encoded (query : string) :
  well_encoded (query_param query) = true.
Proof.
  unfold query_param. destruct (PyStr.truthy query).
  - apply quote_plus_well_encoded.
  - reflexivity.
Qed.

End UrlFacts.

(** C5, as the code has it. The builder is total. The URL is the fixed
    search prefix, the query parameter, [+when:{days}d] and the locale
    parameters. An empty query becomes "AI", any other query is stripped
    and percent-encoded. A negative number of days becomes 1, a positive
    one is kept; zero is falsy, so [days_back or 7] turns it into 7. *)
Theorem google_news_url_coerces :
  forall (query : string) (days_back : Z) (region lang : string),
    _google_news_url query days_back region lang
    = "https://news.google.com/rss/search?q=" ++ query_param query
      ++ "+when:" ++ PyStr.of_int (lookback_days days_back) ++ "d&hl="
      ++ lang ++ "-" ++ region ++ "&gl=" ++ region ++ "&ceid=" ++ region
      ++ ":" ++ lang
    /\ query_param "" = "AI"
    /\ (query <> "" -> query_param query = Url.quote_plus (PyStr.strip query))
    /\ well_encoded (query_param query) = true
    /\ 1 <= lookback_days days_back
    /\ (days_back < 0 -> lookback_days days_back = 1)
    /\ (days_back = 0 -> lookback_days days_back = 7)
    /\ (0 < days_back -> lookback_days days_back = days_back).
Proof.
  intros query days_back region lang.
  split; [reflexivity|]. split; [reflexivity|].
  split.
  { intros Hq. unfold query_param. destruct query; [congruence|reflexivity]. }
  split; [apply query_param_well_encoded|].
  unfold lookback_days, int_or.
  destruct (days_back =? 0) eqn:Hz;
    [apply Z.eqb_eq in Hz | apply Z.eqb_neq in Hz]; repeat split; lia.
Qed.

(** C5, as the specification states it, fails at zero days: the URL asks
    for seven days, not one. *)
Lemma zero_days_becomes_seven :
  lookback_days 0 = 7
  /\ _google_news_url "AI" 0 "US" "en"
     = "https://news.google.com/rss/search?q=AI+when:7d&hl=en-US&gl=US&ceid=US:en"
  /\ ~ (forall days_back, days_back <= 0 -> lookback_days days_back = 1).
Proof.
  split; [reflexivity|]. split; [reflexivity|].
  intros H. specialize (H 0 (Z.le_refl 0)). discriminate H.
Qed.

(* ================================================================= *)
(** ** Feed: the loops *)

Section LoopFacts.

Lemma truthy_nonempty (s : string) : PyStr.truthy s = true -> s <> "".
Proof. destruct s; [discriminate|intros _; discriminate]. Qed.

Lemma item_article_valid item a :
  item_article item = Some a -> valid_article a.
Proof.
  unfold item_article.
  destruct (PyStr.truthy _ && PyStr.truthy _)%bool eqn:H; [|discriminate].
  intros [= <-]. apply andb_true_iff in H. destruct H as [Ht Hl].
  split; simpl; now apply truthy_nonempty.
Qed.

Lemma entry_article_valid e a :
  entry_article e = Some a -> valid_article a.
Proof.
  unfold entry_article.
  destruct (PyStr.truthy _ && PyStr.truthy _)%bool eqn:H; [|discriminate].
  intros [= <-]. apply andb_true_iff in H. destruct H as [Ht Hl].
  split; simpl; now apply truthy_nonempty.
Qed.

Lemma append_opt_app articles o :
  append_opt articles o = (articles ++ opt_list o)%list.
Proof. destruct o; simpl; [reflexivity|now rewrite app_nil_r]. Qed.

Lemma articles_of_items_valid items :
  Forall valid_article (articles_of_items items).
Proof.
  induction items as [|i rest IH]; simpl; [constructor|].
  apply Forall_app. split; [|exact IH].
  destruct (item_article i) eqn:H; simpl; [|constructor].
  constructor; [|constructor]. now apply item_article_valid with i.
Qed.

Lemma articles_of_entries_valid entries :
  Forall valid_article (articles_of_entries entries).
Proof.
  induction entries as [|e rest IH]; simpl; [constructor|].
  apply Forall_app. split; [|exact IH].
  destruct (entry_article e) eqn:H; simpl; [|constructor].
  constructor; [|constructor]. now apply entry_article_valid with e.
Qed.

Lemma articles_of_entries_length entries :
  (List.length (articles_of_entries entries) <= List.length entries)%nat.
Proof.
  induction entries as [|e rest IH]; simpl; [lia|].
  rewrite length_app. destruct (entry_article e); simpl; lia.
Qed.

(** The XML loop keeps the valid articles, in order, until the list
    holds [cap] of them. *)
Lemma xml_loop_firstn cap items :
  forall articles,
    Z.of_nat (List.length articles) < cap ->
    xml_loop cap items articles
    = (articles
       ++ firstn (Z.to_nat cap - List.length articles)
                 (articles_of_items items))%list.
Proof.
  induction items as [|item rest IH]; intros articles Hlen.
  - simpl. now rewrite firstn_nil, app_nil_r.
  - cbn [xml_loop articles_of_items flat_map].
    rewrite append_opt_app.
    destruct (item_article item) as [a|]; cbn [opt_list].
    + rewrite length_app. cbn [List.length].
      destruct (cap <=? Z.of_nat (List.length articles + 1)) eqn:Hcap.
      * apply Z.leb_le in Hcap.
        replace (Z.to_nat cap - List.length articles)%nat with 1%nat by lia.
        cbn [app firstn]. reflexivity.
      * apply Z.leb_gt in Hcap.
        rewrite IH by (rewrite length_app; cbn [List.length]; lia).
        rewrite length_app. cbn [List.length].
        replace (Z.to_nat cap - List.length articles)%nat
          with (S (Z.to_nat cap - (List.length articles + 1)))%nat by lia.
        cbn [app firstn]. now rewrite <- app_assoc.
    + rewrite app_nil_r.
      destruct (cap <=? Z.of_nat (List.length articles)) eqn:Hcap;
        [apply Z.leb_le in Hcap; lia|].
      cbn [app]. now apply IH.
Qed.

Lemma entries_loop_app entries :
  forall articles,
    entries_loop entries articles
    = (articles ++ articles_of_entries entries)%list.
Proof.
  induction entries as [|e rest IH]; intros articles; simpl.
  - now rewrite app_nil_r.
  - rewrite IH, append_opt_app, <- app_assoc. reflexivity.
Qed.

Lemma article_cap_pos max_articles : 1 <= article_cap max_articles.
Proof. unfold article_cap. lia. Qed.

Lemma xml_strategy_articles max_articles items :
  xml_loop (article_cap max_articles) items []
  = firstn (Z.to_nat (article_cap max_articles)) (articles_of_items items).
Proof.
  pose proof (article_cap_pos max_articles).
  rewrite xml_loop_firstn by (simpl; lia).
  simpl. now rewrite Nat.sub_0_r.
Qed.

Lemma feedparser_strategy_articles max_articles entries :
  entries_loop (py_take (article_cap max_articles) entries) []
  = articles_of_entries (firstn (Z.to_nat (article_cap max_articles)) entries).
Proof.
  pose proof (article_cap_pos max_articles) as Hpos.
  rewrite entries_loop_app. unfold py_take.
  destruct (0 <=? article_cap max_articles) eqn:H;
    [reflexivity | apply Z.leb_gt in H; lia].
Qed.

Lemma Forall_firstn (A : Type) (P : A -> Prop) n (l : list A) :
  Forall P l -> Forall P (firstn n l).
Proof.
  intros H. rewrite Forall_forall in *. intros x Hx.
  apply H. rewrite <- (firstn_skipn n l). apply in_or_app. now left.
Qed.

Lemma xml_strategy_retained max_articles items :
  retained max_articles (xml_loop (article_cap max_articles) items []).
Proof.
  rewrite xml_strategy_articles. split.
  - apply Forall_firstn, articles_of_items_valid.
  - pose proof (firstn_le_length (Z.to_nat (article_cap max_articles))
                  (articles_of_items items)).
    pose proof (article_cap_pos max_articles). lia.
Qed.

Lemma feedparser_strategy_retained max_articles entries :
  retained max_articles
    (entries_loop (py_take (article_cap max_articles) entries) []).
Proof.
  rewrite feedparser_strategy_articles. split.
  - apply articles_of_entries_valid.
  - pose proof (articles_of_entries_length
                  (firstn (Z.to_nat (article_cap max_articles)) entries)).
    pose proof (firstn_le_length (Z.to_nat (article_cap max_articles)) entries).
    pose proof (article_cap_pos max_articles). lia.
Qed.

End LoopFacts.

(* ================================================================= *)
(** ** Feed: parsing *)

Section ParseFacts.

Variable w : World.
Variable xml_text : string.
Variable max_articles : Z.

Let cap := article_cap max_articles.

Lemma parse_rss_xml (tr : trace) root :
  ET_fromstring w xml_text = Return root ->
  parse_rss w xml_text max_articles tr
  = (Return (finish (xml_loop cap (findall_items root) [])), tr).
Proof.
  intros H. unfold parse_rss, bind, try_, xml_strategy, lift, ret.
  now rewrite H.
Qed.

Lemma parse_rss_fallback (tr : trace) e entries :
  ET_fromstring w xml_text = Raise e ->
  feedparser_parse w xml_text = Return entries ->
  parse_rss w xml_text max_articles tr
  = (Return (finish (entries_loop (py_take cap entries) [])), tr).
Proof.
  intros H1 H2.
  unfold parse_rss, bind, try_, xml_strategy, feedparser_strategy, lift, ret.
  now rewrite H1, H2.
Qed.

Lemma parse_rss_error (tr : trace) e e2 :
  ET_fromstring w xml_text = Raise e ->
  feedparser_parse w xml_text = Raise e2 ->
  parse_rss w xml_text max_articles tr
  = (Return ([], Some ("Parse error: " ++ e2)), tr).
Proof.
  intros H1 H2.
  unfold parse_rss, bind, try_, xml_strategy, feedparser_strategy, lift, ret.
  now rewrite H1, H2.
Qed.

Lemma finish_consistent articles : consistent (finish articles).
Proof.
  destruct articles as [|a l]; unfold consistent; simpl.
  - split; [split; [discriminate|congruence]|reflexivity].
  - split; [split; [discriminate|reflexivity]|congruence].
Qed.

Lemma finish_retained articles :
  retained max_articles articles ->
  retained max_articles (fst (finish articles)).
Proof. destruct articles; simpl; auto. Qed.

Lemma retained_nil : retained max_articles [].
Proof.
  split; [constructor|]. pose proof (article_cap_pos max_articles).
  simpl. lia.
Qed.

(** Parsing returns normally, leaves the trace alone, and its result
    is consistent and within the cap. *)
Lemma parse_rss_result (tr : trace) :
  exists res,
    parse_rss w xml_text max_articles tr = (Return res, tr)
    /\ consistent res
    /\ retained max_articles (fst res).
Proof.
  destruct (ET_fromstring w xml_text) as [root|e] eqn:Hx.
  - eexists. split; [apply (parse_rss_xml tr Hx)|].
    split; [apply finish_consistent|].
    apply finish_retained, xml_strategy_retained.
  - destruct (feedparser_parse w xml_text) as [entries|e2] eqn:Hf.
    + eexists. split; [apply (parse_rss_fallback tr Hx Hf)|].
      split; [apply finish_consistent|].
      apply finish_retained, feedparser_strategy_retained.
    + eexists. split; [apply (parse_rss_error tr Hx Hf)|].
      split; [|apply retained_nil].
      split; [split; [discriminate|intros H; now elim H]|reflexivity].
Qed.

Lemma parse_error_not_empty_feed (e2 : string) :
  "Parse error: " ++ e2 <> empty_feed_message.
Proof. discriminate. Qed.

End ParseFacts.

(** C6. Parsing follows a three-way taxonomy. When the XML strategy
    raises, the feed-library strategy runs on the same text and nothing
    is raised to the caller; when that one raises too, the result is
    [([], "Parse error: ...")]; when either strategy completes without
    an article, the result is [([], empty_feed_message)], which is no
    parse error message; with an article or more, there is no error. *)
Theorem parse_rss_taxonomy :
  forall (w : World) (xml_text : string) (max_articles : Z) (tr : trace),
    (exists res, parse_rss w xml_text max_articles tr = (Return res, tr))
    /\ (forall e entries,
          ET_fromstring w xml_text = Raise e ->
          feedparser_parse w xml_text = Return entries ->
          parse_rss w xml_text max_articles tr
          = (Return (finish (entries_loop
                               (py_take (article_cap max_articles) entries) [])),
             tr))
    /\ (forall e e2,
          ET_fromstring w xml_text = Raise e ->
          feedparser_parse w xml_text = Raise e2 ->
          parse_rss w xml_text max_articles tr
          = (Return ([], Some ("Parse error: " ++ e2)), tr))
    /\ (forall root,
          ET_fromstring w xml_text = Return root ->
          parse_rss w xml_text max_articles tr
          = (Return (finish (xml_loop (article_cap max_articles)
                               (findall_items root) [])), tr))
    /\ finish [] = ([], Some empty_feed_message)
    /\ (forall a l, finish (a :: l) = (a :: l, None))
    /\ (forall e2, "Parse error: " ++ e2 <> empty_feed_message).
Proof.
  intros w xml_text max_articles tr.
  split.
  { destruct (parse_rss_result w xml_text max_articles tr) as [res [H _]].
    now exists res. }
  split; [intros e entries; apply parse_rss_fallback|].
  split; [intros e e2; apply parse_rss_error|].
  split; [intros root; apply parse_rss_xml|].
  split; [reflexivity|]. split; [reflexivity|].
  exact parse_error_not_empty_feed.
Qed.

Lemma parse_rss_taxonomy_witness :
  parse_rss SampleFeed.fallback_world "<rss>...&...</rss>" 15 []
  = (Return ([SampleFeed.article_a; SampleFeed.article_b], None), [])
  /\ parse_rss SampleFeed.unparsable_world "garbage" 15 []
     = (Return ([], Some "Parse error: No module named 'feedparser'"), []).
Proof.
  pose proof (parse_rss_taxonomy SampleFeed.fallback_world
                "<rss>...&...</rss>" 15 []) as [_ [Hfall _]].
  pose proof (parse_rss_taxonomy SampleFeed.unparsable_world
                "garbage" 15 []) as [_ [_ [Herr _]]].
  split.
  - exact (Hfall _ _ eq_refl eq_refl).
  - exact (Herr _ _ eq_refl eq_refl).
Defined.

(* ================================================================= *)
(** ** Feed: fetching *)

Section FetchFacts.

Variable w : World.

Lemma gets_snoc_get (tr : trace) u a t :
  gets (tr ++ [EvGet u a t])%list = S (gets tr).
Proof.
  unfold gets. rewrite filter_app, length_app. simpl. lia.
Qed.

Lemma gets_snoc_sleep (tr : trace) s :
  gets (tr ++ [EvSleep s])%list = gets tr.
Proof.
  unfold gets. rewrite filter_app, length_app. simpl. lia.
Qed.

(** The retry loop, run: the first request that succeeds ends it; a
    failed request is followed by its pause, the third one included. *)
Lemma http_attempts_run (url : string) (tr : trace) :
  http_attempts w url [0; 1; 2] None tr
  = match requests_get w (gets tr) url _UA 10 with
    | Return x => (Return (inl x), tr ++ nth 0 (retry_traces url) [])
    | Raise _ =>
        match requests_get w (S (gets tr)) url _UA 10 with
        | Return x => (Return (inl x), tr ++ nth 1 (retry_traces url) [])
        | Raise _ =>
            match requests_get w (S (S (gets tr))) url _UA 10 with
            | Return x => (Return (inl x), tr ++ nth 2 (retry_traces url) [])
            | Raise e =>
                (Return (inr (Some e)), tr ++ nth 3 (retry_traces url) [])
            end
        end
    end%list.
Proof.
  cbn [http_attempts nth retry_traces].
  unfold bind, try_, http_get, sleep, emit, ret, the_get.
  fold (gets tr).
  destruct (requests_get w (gets tr) url _UA 10) as [x|e0]; [reflexivity|].
  fold (gets ((tr ++ [EvGet url _UA 10]) ++ [EvSleep (backoff 0)])%list).
  rewrite gets_snoc_sleep, gets_snoc_get.
  destruct (requests_get w (S (gets tr)) url _UA 10) as [x|e1].
  { now rewrite <- !app_assoc. }
  match goal with
  | |- context [List.length (filter is_get ?t)] => fold (gets t)
  end.
  rewrite gets_snoc_sleep, gets_snoc_get, gets_snoc_sleep, gets_snoc_get.
  destruct (requests_get w (S (S (gets tr))) url _UA 10) as [x|e2];
    now rewrite <- !app_assoc.
Qed.

Lemma retry_traces_gets (url : string) (evs : list event) :
  In evs (retry_traces url) ->
  (1 <= gets evs <= 3)%nat
  /\ Forall (fun ev => is_get ev = true -> ev = EvGet url _UA 10) evs.
Proof.
  intros H. simpl in H.
  destruct H as [<-|[<-|[<-|[<-|[]]]]]; (split; [vm_compute; lia|]);
    repeat constructor; discriminate.
Qed.

Variables (query : string) (days_back max_articles : Z).
Variables (region lang : string).

Let url := _google_news_url query days_back region lang.

Lemma fetch_google_news_exhausted (tr : trace) e0 e1 e2 :
  requests_get w (gets tr) url _UA 10 = Raise e0 ->
  requests_get w (S (gets tr)) url _UA 10 = Raise e1 ->
  requests_get w (S (S (gets tr))) url _UA 10 = Raise e2 ->
  fetch_google_news w query days_back max_articles region lang tr
  = (Return ([], Some ("HTTP error fetching RSS: " ++ e2)),
     (tr ++ nth 3 (retry_traces url) [])%list).
Proof.
  intros H0 H1 H2. unfold fetch_google_news, bind. fold url.
  rewrite http_attempts_run, H0, H1, H2. reflexivity.
Qed.

(** A run returns normally; its trace grows by one of the four retry
    traces; its result is consistent and within the cap. *)
Lemma fetch_google_news_result (tr : trace) :
  exists res evs,
    fetch_google_news w query days_back max_articles region lang tr
    = (Return res, (tr ++ evs)%list)
    /\ In evs (retry_traces url)
    /\ consistent res
    /\ retained max_articles (fst res).
Proof.
  unfold fetch_google_news, bind. fold url.
  rewrite http_attempts_run.
  assert (Hparse : forall x k,
             (k < 3)%nat ->
             exists res evs,
               parse_rss w x max_articles
                 (tr ++ nth k (retry_traces url) [])%list
               = (Return res, (tr ++ evs)%list)
               /\ In evs (retry_traces url)
               /\ consistent res /\ retained max_articles (fst res)).
  { intros x k Hk.
    destruct (parse_rss_result w x max_articles
                (tr ++ nth k (retry_traces url) [])%list)
      as [res [Hrun [Hc Hr]]].
    exists res, (nth k (retry_traces url) []).
    split; [exact Hrun|]. split; [|now split].
    apply nth_In. simpl. lia. }
  destruct (requests_get w (gets tr) url _UA 10) as [x|e0];
    [apply (Hparse x 0%nat); lia|].
  destruct (requests_get w (S (gets tr)) url _UA 10) as [x|e1];
    [apply (Hparse x 1%nat); lia|].
  destruct (requests_get w (S (S (gets tr))) url _UA 10) as [x|e2];
    [apply (Hparse x 2%nat); lia|].
  eexists. exists (nth 3 (retry_traces url) []).
  split; [reflexivity|]. split; [apply nth_In; simpl; lia|].
  split; [|apply retained_nil].
  split; [split; [discriminate|intros H; now elim H]|reflexivity].
Qed.

End FetchFacts.

(** C7. A run of [fetch_google_news] sends one, two or three GET
    requests, each for the built URL with the fixed User-Agent and a
    timeout of 10; a failed attempt is followed by a pause of 0.5 times
    its one-based index (0.5, 1.0, 1.5), so the pauses between attempts
    grow linearly; when all three attempts fail the result is
    [([], "HTTP error fetching RSS: " + last error)]; in every case the
    call returns normally. *)
Theorem http_retry_policy :
  forall (w : World) (query : string) (days_back max_articles : Z)
         (region lang : string) (tr : trace),
    let url := _google_news_url query days_back region lang in
    (exists res evs,
        fetch_google_news w query days_back max_articles region lang tr
        = (Return res, (tr ++ evs)%list)
        /\ In evs (retry_traces url)
        /\ (1 <= gets evs <= 3)%nat
        /\ Forall (fun ev => is_get ev = true -> ev = EvGet url _UA 10) evs)
    /\ (forall e0 e1 e2,
          requests_get w (gets tr) url _UA 10 = Raise e0 ->
          requests_get w (S (gets tr)) url _UA 10 = Raise e1 ->
          requests_get w (S (S (gets tr))) url _UA 10 = Raise e2 ->
          fetch_google_news w query days_back max_articles region lang tr
          = (Return ([], Some ("HTTP error fetching RSS: " ++ e2)),
             (tr ++ [the_get url; EvSleep (backoff 0);
                     the_get url; EvSleep (backoff 1);
                     the_get url; EvSleep (backoff 2)])%list))
    /\ backoff 0 = (0.5 * 1)%float
    /\ backoff 1 = (0.5 * 2)%float
    /\ backoff 2 = (0.5 * 3)%float
    /\ (backoff 0, backoff 1, backoff 2) = (0.5, 1.0, 1.5)%float.
Proof.
  intros w query days_back max_articles region lang tr url.
  split.
  { destruct (fetch_google_news_result w query days_back max_articles
                region lang tr) as [res [evs [Hrun [Hin _]]]].
    exists res, evs. split; [exact Hrun|]. split; [exact Hin|].
    now apply retry_traces_gets. }
  split.
  { intros e0 e1 e2 H0 H1 H2.
    now apply fetch_google_news_exhausted with e0 e1. }
  repeat split; reflexivity.
Qed.

Lemma http_retry_policy_witness :
  fetch_google_news SampleFeed.offline_world "AI" 7 15 "US" "en" []
  = (Return ([], Some "HTTP error fetching RSS: connection refused"),
     nth 3 (retry_traces (_google_news_url "AI" 7 "US" "en")) []).
Proof.
  pose proof (http_retry_policy SampleFeed.offline_world "AI" 7 15 "US" "en" [])
    as [_ [Hfail _]].
  exact (Hfail "timed out" "503 Server Error" "connection refused"
           eq_refl eq_refl eq_refl).
Defined.

(** C10. [fetch_google_news] always returns a pair [(articles, error)]
    in which the error is [None] exactly when there is an article: every
    failure comes with the empty list. *)
Theorem error_iff_articles :
  forall (w : World) (query : string) (days_back max_articles : Z)
         (region lang : string) (tr : trace),
  exists articles err tr',
    fetch_google_news w query days_back max_articles region lang tr
    = (Return (articles, err), tr')
    /\ (err = None <-> articles <> [])
    /\ (err <> None -> articles = []).
Proof.
  intros w query days_back max_articles region lang tr.
  destruct (fetch_google_news_result w query days_back max_articles
              region lang tr) as [[articles err] [evs [Hrun [_ [[Hiff Himp] _]]]]].
  exists articles, err, (tr ++ evs)%list. now repeat split; try apply Hiff.
Qed.

(** C1. For [days >= 1] and [max_items >= 1], [fetch_news] returns
    normally a list of at most [max_items] articles, each with a
    non-empty title and a non-empty link. *)
Theorem fetch_news_bounded_valid :
  forall (w : World) (query : string) (days max_items : Z) (tr : trace),
    1 <= days ->
    1 <= max_items ->
    exists articles tr',
      fetch_news w query days max_items tr = (Return articles, tr')
      /\ Z.of_nat (List.length articles) <= max_items
      /\ Forall (fun a => title a <> "" /\ link a <> "") articles.
Proof.
  intros w query days max_items tr Hdays Hmax.
  destruct (fetch_google_news_result w query days max_items "US" "en" tr)
    as [[articles err] [evs [Hrun [_ [_ [Hvalid Hlen]]]]]].
  simpl in Hvalid, Hlen.
  assert (Hcap : article_cap max_items = max_items).
  { unfold article_cap, int_or.
    destruct (max_items =? 0) eqn:Hz; [apply Z.eqb_eq in Hz|]; lia. }
  rewrite Hcap in Hlen.
  unfold fetch_news, bind. rewrite Hrun.
  destruct err as [e|].
  - destruct (PyStr.truthy e).
    + eexists. eexists. split; [reflexivity|]. now split.
    + eexists. eexists. split; [reflexivity|]. now split.
  - eexists. eexists. split; [reflexivity|]. now split.
Qed.

Lemma fetch_news_bounded_valid_witness :
  exists tr',
    fetch_news SampleFeed.xml_world "AI" 7 1 []
    = (Return [SampleFeed.article_a], tr').
Proof.
  destruct (@fetch_news_bounded_valid SampleFeed.xml_world "AI" 7 1 []
              ltac:(lia) ltac:(lia)) as [articles [tr' [Hrun _]]].
  exists tr'. rewrite Hrun. vm_compute in Hrun.
  injection Hrun as <- _. reflexivity.
Defined.

(** C9, where the code departs from it. In the XML strategy an item
    without title or link is skipped and does not count: the result is
    the first [cap] valid articles. The feed-library strategy slices the
    entries to the first [cap] before it skips, so there a skipped entry
    uses up a place: on the same three entries and a cap of 2 the XML
    strategy returns two articles and the fallback only one. *)
Theorem fallback_slice_counts_skipped :
  (forall max_articles items,
      xml_loop (article_cap max_articles) items []
      = firstn (Z.to_nat (article_cap max_articles)) (articles_of_items items))
  /\ (forall max_articles entries,
        entries_loop (py_take (article_cap max_articles) entries) []
        = articles_of_entries
            (firstn (Z.to_nat (article_cap max_articles)) entries))
  /\ articles_of_entries SampleFeed.entries
     = [SampleFeed.article_a; SampleFeed.article_b]
  /\ fst (fetch_google_news SampleFeed.xml_world "AI" 7 2 "US" "en" [])
     = Return ([SampleFeed.article_a; SampleFeed.article_b], None)
  /\ fst (fetch_google_news SampleFeed.fallback_world "AI" 7 2 "US" "en" [])
     = Return ([SampleFeed.article_a], None).
Proof.
  split; [exact xml_strategy_articles|].
  split; [exact feedparser_strategy_articles|].
  repeat split; vm_compute; reflexivity.
Qed.

(* ================================================================= *)
(** ** Strings: stripping *)

Section StripFacts.

Lemma lstrip_first (s : string) :
  forall c, first_char (PyStr.lstrip s) = Some c -> PyStr.isspace c = false.
Proof.
  induction s as [|a r IH]; intros c; simpl; [discriminate|].
  destruct (PyStr.isspace a) eqn:Ha; [apply IH|].
  simpl. intros [= <-]. exact Ha.
Qed.

Lemma lstrip_fixed (s : string) :
  (forall c, first_char s = Some c -> PyStr.isspace c = false) ->
  PyStr.lstrip s = s.
Proof.
  destruct s as [|a r]; [reflexivity|]. intros H. simpl.
  now rewrite (H a eq_refl).
Qed.

Lemma rstrip_first (s : string) :
  forall c, first_char s = Some c -> PyStr.isspace c = false ->
            first_char (PyStr.rstrip s) = Some c.
Proof.
  destruct s as [|a r]; intros c; simpl; [discriminate|].
  intros [= <-] Ha. destruct (PyStr.rstrip r); [now rewrite Ha|reflexivity].
Qed.

Lemma rstrip_last (s : string) :
  forall c, last_char (PyStr.rstrip s) = Some c -> PyStr.isspace c = false.
Proof.
  induction s as [|a r IH]; intros c; [discriminate|].
  cbn [PyStr.rstrip]. destruct (PyStr.rstrip r) as [|d r'] eqn:Hr.
  - destruct (PyStr.isspace a) eqn:Ha; [discriminate|].
    simpl. intros [= <-]. exact Ha.
  - intros H. apply IH. exact H.
Qed.

Lemma rstrip_fixed (s : string) :
  (forall c, last_char s = Some c -> PyStr.isspace c = false) ->
  PyStr.rstrip s = s.
Proof.
  induction s as [|a r IH]; intros H; [reflexivity|].
  cbn [PyStr.rstrip]. destruct r as [|d r'].
  - simpl. now rewrite (H a eq_refl).
  - rewrite IH; [reflexivity|]. intros c Hc. apply H. exact Hc.
Qed.

Lemma rstrip_first_none (s : string) :
  first_char s = None -> first_char (PyStr.rstrip s) = None.
Proof. destruct s; [reflexivity|discriminate]. Qed.

Lemma strip_trimmed (s : string) : trimmed (PyStr.strip s).
Proof.
  unfold PyStr.strip. split; [|apply rstrip_last].
  intros c Hc.
  destruct (first_char (PyStr.lstrip s)) as [a|] eqn:Hf.
  - pose proof (lstrip_first s Hf) as Ha.
    rewrite (rstrip_first _ Hf Ha) in Hc. now injection Hc as <-.
  - now rewrite (rstrip_first_none _ Hf) in Hc.
Qed.

Lemma trimmed_strip (s : string) : trimmed s -> PyStr.strip s = s.
Proof.
  intros [Hf Hl]. unfold PyStr.strip.
  rewrite (lstrip_fixed _ Hf). now apply rstrip_fixed.
Qed.

Lemma strip_idempotent (s : string) :
  PyStr.strip (PyStr.strip s) = PyStr.strip s.
Proof. apply trimmed_strip, strip_trimmed. Qed.

Lemma lstrip_blank (s : string) : blank s -> PyStr.lstrip s = "".
Proof.
  unfold blank. induction s as [|a r IH]; simpl; [reflexivity|].
  intros H. apply andb_true_iff in H. destruct H as [Ha Hr].
  rewrite Ha. now apply IH.
Qed.

Lemma strip_blank (s : string) : blank s -> PyStr.strip s = "".
Proof. intros H. unfold PyStr.strip. now rewrite lstrip_blank. Qed.

Lemma lstrip_empty_blank (s : string) : PyStr.lstrip s = "" -> blank s.
Proof.
  unfold blank. induction s as [|a r IH]; simpl; [reflexivity|].
  destruct (PyStr.isspace a); [exact IH|discriminate].
Qed.

Lemma rstrip_empty_blank (s : string) : PyStr.rstrip s = "" -> blank s.
Proof.
  unfold blank. induction s as [|a r IH]; [reflexivity|].
  cbn [PyStr.rstrip PyStr.forall_chars].
  destruct (PyStr.rstrip r) as [|d r'] eqn:Hr; [|discriminate].
  destruct (PyStr.isspace a); [intros _; now apply IH|discriminate].
Qed.

Lemma blank_lstrip (s : string) : blank (PyStr.lstrip s) -> blank s.
Proof.
  unfold blank. induction s as [|a r IH]; simpl; [reflexivity|].
  destruct (PyStr.isspace a) eqn:Ha; [exact IH|].
  simpl. now rewrite Ha.
Qed.

Lemma strip_empty_blank (s : string) : PyStr.strip s = "" -> blank s.
Proof.
  unfold PyStr.strip. intros H. now apply blank_lstrip, rstrip_empty_blank.
Qed.

End StripFacts.

(* ================================================================= *)
(** ** Feed URL: more properties *)

Section UrlMore.

Lemma unquote_percent (c : ascii) (t : string) :
  unquote_plus (Url.percent c ++ t) = String c (unquote_plus t).
Proof.
  unfold Url.percent. cbn [append unquote_plus].
  change (Url.is_char "%" "%") with true. cbv iota. f_equal.
  destruct c as [[] [] [] [] [] [] [] []]; vm_compute; reflexivity.
Qed.

Lemma always_safe_literal (c : ascii) :
  Url.always_safe c = true ->
  Url.is_char "%" c = false /\ Url.is_char "+" c = false.
Proof.
  destruct c as [[] [] [] [] [] [] [] []]; vm_compute; intros H;
    (split; reflexivity) || discriminate.
Qed.

Lemma unquote_safe (c : ascii) (t : string) :
  Url.always_safe c = true ->
  unquote_plus (String c t) = String c (unquote_plus t).
Proof.
  intros Hc. destruct (always_safe_literal c Hc) as [Hp Hq].
  cbn [unquote_plus]. now rewrite Hp, Hq.
Qed.

Lemma unquote_quote (s : string) :
  unquote_plus (Url.quote Url.always_safe s) = s.
Proof.
  induction s as [|c r IH]; [reflexivity|].
  cbn [Url.quote]. destruct (Url.always_safe c) eqn:Hc.
  - rewrite unquote_safe by exact Hc. now rewrite IH.
  - rewrite unquote_percent. now rewrite IH.
Qed.

Lemma unquote_quote_space (s : string) :
  unquote_plus
    (Url.replace_char " " "+"
       (Url.quote (fun c => (Url.always_safe c || Url.is_char " " c)%bool) s))
  = s.
Proof.
  induction s as [|c r IH]; [reflexivity|].
  cbn [Url.quote].
  destruct (Url.always_safe c || Url.is_char " " c)%bool eqn:Hc.
  - cbn [Url.replace_char]. destruct (Ascii.eqb c " ") eqn:Hsp.
    + apply Ascii.eqb_eq in Hsp. subst c.
      cbn [unquote_plus]. change (Url.is_char "%" "+") with false.
      change (Url.is_char "+" "+") with true. cbv iota. now rewrite IH.
    + rewrite unquote_safe; [now rewrite IH|].
      apply orb_true_iff in Hc. destruct Hc as [Hc|Hc]; [exact Hc|].
      unfold Url.is_char in Hc. rewrite Ascii.eqb_sym in Hc. congruence.
  - rewrite replace_percent, unquote_percent. now rewrite IH.
Qed.

Lemma unquote_quote_plus (s : string) : unquote_plus (Url.quote_plus s) = s.
Proof.
  unfold Url.quote_plus. destruct (PyStr.exists_char _ s).
  - apply unquote_quote_space.
  - apply unquote_quote.
Qed.

Lemma string_length_app (a b : string) :
  String.length (a ++ b) = (String.length a + String.length b)%nat.
Proof. induction a as [|c r IH]; simpl; [reflexivity|now rewrite IH]. Qed.

Lemma append_cancel_l (p x y : string) : p ++ x = p ++ y -> x = y.
Proof.
  induction p as [|c r IH]; simpl; [trivial|].
  intros [= H]. now apply IH.
Qed.

Lemma append_cancel_r (x y s : string) : x ++ s = y ++ s -> x = y.
Proof.
  intros H.
  assert (Hlen : String.length x = String.length y).
  { apply (f_equal String.length) in H. rewrite !string_length_app in H. lia. }
  revert y H Hlen. induction x as [|c x IH]; intros [|d y] H Hlen;
    try discriminate; [reflexivity|].
  simpl in H. injection H as -> H. f_equal. apply IH; [exact H|].
  simpl in Hlen. lia.
Qed.

Lemma quote_plus_nonempty (s : string) : s <> "" -> Url.quote_plus s <> "".
Proof.
  intros Hs H. apply Hs. rewrite <- (unquote_quote_plus s), H. reflexivity.
Qed.

Lemma effective_query_trimmed (top_query : option string) :
  trimmed (effective_query top_query).
Proof.
  unfold effective_query.
  destruct (PyStr.truthy (PyStr.strip (PyStr.or_empty top_query))).
  - apply strip_trimmed.
  - split; intros c [= <-]; reflexivity.
Qed.

Lemma effective_query_nonempty (top_query : option string) :
  effective_query top_query <> "".
Proof.
  unfold effective_query.
  destruct (PyStr.strip (PyStr.or_empty top_query)) eqn:H; simpl; discriminate.
Qed.

End UrlMore.

(** X1. A query that is not empty but holds only white space is not
    replaced by the default: it is stripped to nothing, and the URL
    carries an empty search term before the recency filter. *)
Theorem blank_query_not_defaulted :
  forall (query : string) (days_back : Z) (region lang : string),
    query <> "" ->
    blank query ->
    query_param query = ""
    /\ _google_news_url query days_back region lang
       = "https://news.google.com/rss/search?q=+when:"
         ++ PyStr.of_int (lookback_days days_back) ++ "d&hl=" ++ lang ++ "-"
         ++ region ++ "&gl=" ++ region ++ "&ceid=" ++ region ++ ":" ++ lang.
Proof.
  intros query days_back region lang Hne Hblank.
  assert (Hq : query_param query = "").
  { unfold query_param. destruct query as [|c r]; [congruence|].
    cbn [PyStr.truthy]. now rewrite strip_blank. }
  split; [exact Hq|].
  unfold _google_news_url. now rewrite Hq.
Qed.

Lemma blank_query_not_defaulted_witness :
  _google_news_url "   " 3 "US" "en"
  = "https://news.google.com/rss/search?q=+when:3d&hl=en-US&gl=US&ceid=US:en".
Proof.
  exact (proj2 (@blank_query_not_defaulted "   " 3 "US" "en"
                  ltac:(discriminate) eq_refl)).
Defined.

(** X2. Different queries are never sent as the same URL: two
    non-empty queries for which the builder gives the same URL (same
    days and locale) are equal once stripped. The percent-encoding
    loses nothing. *)
Theorem same_url_same_query :
  forall (a b : string) (days_back : Z) (region lang : string),
    a <> "" ->
    b <> "" ->
    _google_news_url a days_back region lang
    = _google_news_url b days_back region lang ->
    PyStr.strip a = PyStr.strip b.
Proof.
  intros a b days_back region lang Ha Hb Hurl.
  unfold _google_news_url in Hurl.
  assert (Hq : query_param a = query_param b).
  { apply append_cancel_l in Hurl. apply append_cancel_l in Hurl.
    now apply append_cancel_r in Hurl. }
  unfold query_param in Hq.
  destruct a as [|ca ra]; [congruence|]. destruct b as [|cb rb]; [congruence|].
  cbn [PyStr.truthy] in Hq.
  rewrite <- (unquote_quote_plus (PyStr.strip (String ca ra))).
  rewrite <- (unquote_quote_plus (PyStr.strip (String cb rb))).
  now rewrite Hq.
Qed.

Lemma same_url_same_query_witness :
  PyStr.strip " chips & labs" = PyStr.strip "chips & labs  ".
Proof.
  exact (@same_url_same_query " chips & labs" "chips & labs  " 7 "US" "en"
           ltac:(discriminate) ltac:(discriminate) eq_refl).
Defined.

(** X3. The query the main page sends, [(top_query or "").strip() or
    "AI"], is never empty and has no white space at its ends; it is "AI"
    exactly when the input is missing or blank; and the URL builder
    percent-encodes it as it is, to a non-empty search term. *)
Theorem effective_query_sent :
  forall (top_query : option string),
    let q := effective_query top_query in
    q <> ""
    /\ trimmed q
    /\ (blank (PyStr.or_empty top_query) -> q = "AI")
    /\ (~ blank (PyStr.or_empty top_query) ->
        q = PyStr.strip (PyStr.or_empty top_query))
    /\ query_param q = Url.quote_plus q
    /\ query_param q <> "".
Proof.
  intros top_query q.
  pose proof (effective_query_nonempty top_query) as Hne.
  pose proof (effective_query_trimmed top_query) as Htr.
  fold q in Hne, Htr.
  assert (Hparam : query_param q = Url.quote_plus q).
  { unfold query_param. destruct q as [|c r] eqn:Hq; [congruence|].
    cbn [PyStr.truthy]. now rewrite (trimmed_strip Htr). }
  split; [exact Hne|]. split; [exact Htr|].
  split.
  { intros Hb. unfold q, effective_query. now rewrite (strip_blank Hb). }
  split.
  { intros Hnb. unfold q, effective_query.
    destruct (PyStr.strip (PyStr.or_empty top_query)) eqn:Hs; [|reflexivity].
    elim Hnb. now apply strip_empty_blank. }
  split; [exact Hparam|].
  rewrite Hparam. now apply quote_plus_nonempty.
Qed.

(* ================================================================= *)
(** ** Feed: more properties *)

Section FeedMore.

Variable w : World.

Lemma parse_rss_run (xml_text : string) (max_articles : Z) (tr : trace) :
  parse_rss w xml_text max_articles tr
  = (Return (parse_result w xml_text max_articles), tr).
Proof.
  unfold parse_result.
  destruct (ET_fromstring w xml_text) as [root|e] eqn:Hx.
  - now apply parse_rss_xml.
  - destruct (feedparser_parse w xml_text) as [entries|e2] eqn:Hf.
    + now apply parse_rss_fallback with e.
    + now apply parse_rss_error with e.
Qed.

Lemma finish_error_truthy articles e :
  snd (finish articles) = Some e -> PyStr.truthy e = true.
Proof. destruct articles; simpl; [intros [= <-]; reflexivity|discriminate]. Qed.

Lemma parse_result_error_truthy xml_text max_articles e :
  snd (parse_result w xml_text max_articles) = Some e ->
  PyStr.truthy e = true.
Proof.
  unfold parse_result.
  destruct (ET_fromstring w xml_text); [apply finish_error_truthy|].
  destruct (feedparser_parse w xml_text); [apply finish_error_truthy|].
  simpl. intros [= <-]. reflexivity.
Qed.

Lemma trimmed_empty : trimmed "".
Proof. split; intros c; discriminate. Qed.

Lemma item_article_trimmed item a :
  item_article item = Some a -> article_trimmed a.
Proof.
  unfold item_article.
  destruct (PyStr.truthy _ && PyStr.truthy _)%bool; [|discriminate].
  intros [= <-]. unfold article_trimmed. simpl.
  repeat split; try apply strip_trimmed.
  all: unfold item_source; destruct (find _ _);
    (apply strip_trimmed || apply trimmed_empty).
Qed.

Lemma entry_article_trimmed e a :
  entry_article e = Some a -> article_trimmed a.
Proof.
  unfold entry_article.
  destruct (PyStr.truthy _ && PyStr.truthy _)%bool; [|discriminate].
  intros [= <-]. unfold article_trimmed. simpl.
  repeat split; try apply strip_trimmed.
  all: destruct (entry_source e) as [[t|]|];
    (apply strip_trimmed || apply trimmed_empty).
Qed.

Lemma articles_of_items_trimmed items :
  Forall article_trimmed (articles_of_items items).
Proof.
  induction items as [|i rest IH]; simpl; [constructor|].
  apply Forall_app. split; [|exact IH].
  destruct (item_article i) eqn:H; simpl; [|constructor].
  constructor; [|constructor]. now apply item_article_trimmed with i.
Qed.

Lemma articles_of_entries_trimmed entries :
  Forall article_trimmed (articles_of_entries entries).
Proof.
  induction entries as [|e rest IH]; simpl; [constructor|].
  apply Forall_app. split; [|exact IH].
  destruct (entry_article e) eqn:H; simpl; [|constructor].
  constructor; [|constructor]. now apply entry_article_trimmed with e.
Qed.

Lemma finish_trimmed articles :
  Forall article_trimmed articles ->
  Forall article_trimmed (fst (finish articles)).
Proof. destruct articles; simpl; auto. Qed.

Lemma parse_result_trimmed xml_text max_articles :
  Forall article_trimmed (fst (parse_result w xml_text max_articles)).
Proof.
  unfold parse_result.
  destruct (ET_fromstring w xml_text) as [root|e].
  - apply finish_trimmed. rewrite xml_strategy_articles.
    apply Forall_firstn, articles_of_items_trimmed.
  - destruct (feedparser_parse w xml_text) as [entries|e2]; [|constructor].
    apply finish_trimmed. rewrite feedparser_strategy_articles.
    apply articles_of_entries_trimmed.
Qed.

Variables (query : string) (days_back max_articles : Z).
Variables (region lang : string).

Let url := _google_news_url query days_back region lang.

(** A run ends either in the parse of a response text or in the HTTP
    error. *)
Lemma fetch_google_news_cases (tr : trace) :
  exists evs,
    In evs (retry_traces url)
    /\ ((exists x,
            fetch_google_news w query days_back max_articles region lang tr
            = (Return (parse_result w x max_articles), (tr ++ evs)%list))
        \/ (exists e,
               fetch_google_news w query days_back max_articles region lang tr
               = (Return ([], Some ("HTTP error fetching RSS: " ++ e)),
                  (tr ++ evs)%list))).
Proof.
  unfold fetch_google_news, bind. fold url. rewrite http_attempts_run.
  destruct (requests_get w (gets tr) url _UA 10) as [x|e0].
  { exists (nth 0 (retry_traces url) []). split; [now left|].
    left. exists x. apply parse_rss_run. }
  destruct (requests_get w (S (gets tr)) url _UA 10) as [x|e1].
  { exists (nth 1 (retry_traces url) []). split; [right; now left|].
    left. exists x. apply parse_rss_run. }
  destruct (requests_get w (S (S (gets tr))) url _UA 10) as [x|e2].
  { exists (nth 2 (retry_traces url) []). split; [right; right; now left|].
    left. exists x. apply parse_rss_run. }
  exists (nth 3 (retry_traces url) []).
  split; [right; right; right; now left|].
  right. now exists e2.
Qed.

Lemma fetch_google_news_after (tr : trace) (k : nat) (x : string) :
  (k < 3)%nat ->
  (forall j, (j < k)%nat ->
             exists e, requests_get w (gets tr + j) url _UA 10 = Raise e) ->
  requests_get w (gets tr + k) url _UA 10 = Return x ->
  fetch_google_news w query days_back max_articles region lang tr
  = (Return (parse_result w x max_articles),
     (tr ++ nth k (retry_traces url) [])%list).
Proof.
  intros Hk Hfail Hok.
  unfold fetch_google_news, bind. fold url. rewrite http_attempts_run.
  destruct k as [|[|[|k]]]; [| | |lia].
  - rewrite Nat.add_0_r in Hok. rewrite Hok. apply parse_rss_run.
  - destruct (Hfail 0%nat ltac:(lia)) as [e0 H0].
    rewrite Nat.add_0_r in H0. rewrite Nat.add_1_r in Hok.
    rewrite H0, Hok. apply parse_rss_run.
  - destruct (Hfail 0%nat ltac:(lia)) as [e0 H0].
    destruct (Hfail 1%nat ltac:(lia)) as [e1 H1].
    rewrite Nat.add_0_r in H0. rewrite Nat.add_1_r in H1.
    replace (gets tr + 2)%nat with (S (S (gets tr))) in Hok by lia.
    rewrite H0, H1, Hok. apply parse_rss_run.
Qed.

End FeedMore.

(** X4. Retries are transparent: when the first [k] attempts fail and
    the next one ([k < 3]) is answered, the result is the parse of that
    answer, whatever the failures were, and the trace is the one of [k]
    failed attempts followed by the successful request. *)
Theorem retry_transparent :
  forall (w : World) (query : string) (days_back max_articles : Z)
         (region lang : string) (tr : trace) (k : nat) (x : string),
    let url := _google_news_url query days_back region lang in
    (k < 3)%nat ->
    (forall j, (j < k)%nat ->
               exists e, requests_get w (gets tr + j) url _UA 10 = Raise e) ->
    requests_get w (gets tr + k) url _UA 10 = Return x ->
    fetch_google_news w query days_back max_articles region lang tr
    = (Return (parse_result w x max_articles),
       (tr ++ nth k (retry_traces url) [])%list).
Proof.
  intros w query days_back max_articles region lang tr k x url.
  apply fetch_google_news_after.
Qed.

Lemma retry_transparent_witness :
  fetch_google_news SampleMore.flaky_world "AI" 7 15 "US" "en" []
  = (Return ([SampleFeed.article_a; SampleFeed.article_b], None),
     nth 1 (retry_traces (_google_news_url "AI" 7 "US" "en")) []).
Proof.
  refine (@retry_transparent SampleMore.flaky_world "AI" 7 15 "US" "en" []
            1%nat "<rss>...</rss>" ltac:(lia) _ eq_refl).
  intros j Hj. assert (j = 0%nat) as -> by lia. now exists "timed out".
Defined.

(** X5. A response that is well-formed XML but yields no article (no
    item, or no item with both title and link) gives the empty-feed
    error, not a parse error, and the feed library is not consulted:
    the result is the same whatever it would return. *)
Theorem empty_feed_is_not_parse_error :
  forall (w : World) (query : string) (days_back max_articles : Z)
         (region lang : string) (tr : trace) (x : string) (root : element),
    let url := _google_news_url query days_back region lang in
    requests_get w (gets tr) url _UA 10 = Return x ->
    ET_fromstring w x = Return root ->
    articles_of_items (findall_items root) = [] ->
    fetch_google_news w query days_back max_articles region lang tr
    = (Return ([], Some empty_feed_message), (tr ++ [the_get url])%list).
Proof.
  intros w query days_back max_articles region lang tr x root url Hget Hxml Hno.
  rewrite (@fetch_google_news_after w query days_back max_articles region lang
             tr 0%nat x); [| lia | intros j Hj; lia | now rewrite Nat.add_0_r].
  unfold parse_result. rewrite Hxml, xml_strategy_articles, Hno, firstn_nil.
  reflexivity.
Qed.

Lemma empty_feed_is_not_parse_error_witness :
  fetch_google_news SampleMore.empty_world "AI" 7 15 "US" "en" []
  = (Return ([], Some empty_feed_message),
     [the_get (_google_news_url "AI" 7 "US" "en")]).
Proof.
  exact (@empty_feed_is_not_parse_error SampleMore.empty_world "AI" 7 15
           "US" "en" [] "<rss><channel/></rss>" SampleMore.empty_root
           eq_refl eq_refl eq_refl).
Defined.

(** X6. [fetch_news] returns the articles of [fetch_google_news] and
    adds to its trace exactly one warning, carrying the error message,
    when there is an error, and nothing otherwise; so the list it
    returns is empty exactly when it has warned. *)
Theorem fetch_news_warns_on_error :
  forall (w : World) (query : string) (days max_items : Z) (tr : trace),
  exists articles err tr1,
    fetch_google_news w query days max_items "US" "en" tr
    = (Return (articles, err), tr1)
    /\ fetch_news w query days max_items tr
       = (Return articles,
          (tr1 ++ match err with
                  | Some e => [EvWarning e]
                  | None => []
                  end)%list)
    /\ (articles = [] <-> err <> None).
Proof.
  intros w query days max_items tr.
  destruct (fetch_google_news_result w query days max_items "US" "en" tr)
    as [[articles err] [evs [Hrun [_ [[Hiff Himp] _]]]]].
  simpl in Hiff, Himp.
  assert (Htruthy : forall e, err = Some e -> PyStr.truthy e = true).
  { intros e ->.
    destruct (fetch_google_news_cases w query days max_items "US" "en" tr)
      as [evs' [_ [[x Hx]|[e' He']]]].
    - rewrite Hx in Hrun. injection Hrun as Hres _.
      apply parse_result_error_truthy with w x max_items.
      now rewrite Hres.
    - rewrite He' in Hrun. injection Hrun as _ He _. now subst e. }
  exists articles, err, (tr ++ evs)%list.
  split; [exact Hrun|]. split.
  - unfold fetch_news, bind. rewrite Hrun. destruct err as [e|].
    + rewrite (Htruthy e eq_refl). reflexivity.
    + now rewrite app_nil_r.
  - split.
    + intros Hnil Hnone. apply Hiff in Hnone. contradiction.
    + exact Himp.
Qed.

(** X7. Every field (title, link, publication date, source) of every
    article [fetch_google_news] returns has no white space at either
    end, whichever strategy parsed the feed. *)
Theorem returned_articles_trimmed :
  forall (w : World) (query : string) (days_back max_articles : Z)
         (region lang : string) (tr : trace),
  exists articles err tr',
    fetch_google_news w query days_back max_articles region lang tr
    = (Return (articles, err), tr')
    /\ Forall article_trimmed articles.
Proof.
  intros w query days_back max_articles region lang tr.
  destruct (fetch_google_news_cases w query days_back max_articles region lang tr)
    as [evs [_ [[x Hx]|[e He]]]].
  - pose proof (parse_result_trimmed w x max_articles) as Htr.
    destruct (parse_result w x max_articles) as [articles err].
    exists articles, err, (tr ++ evs)%list. now split.
  - eexists. eexists. eexists. split; [exact He|constructor].
Qed.

(** X8. Whatever [max_articles] is, at most [max(1, max_articles or
    15)] articles are returned: 15 when it is 0 (falsy), one when it is
    negative, [max_articles] itself when it is positive. *)
Theorem article_cap_any :
  forall (w : World) (query : string) (days_back max_articles : Z)
         (region lang : string) (tr : trace),
  exists articles err tr',
    fetch_google_news w query days_back max_articles region lang tr
    = (Return (articles, err), tr')
    /\ Z.of_nat (List.length articles) <= article_cap max_articles
    /\ article_cap max_articles
       = (if max_articles =? 0 then 15
          else if max_articles <? 0 then 1 else max_articles).
Proof.
  intros w query days_back max_articles region lang tr.
  destruct (fetch_google_news_result w query days_back max_articles
              region lang tr)
    as [[articles err] [evs [Hrun [_ [_ [_ Hlen]]]]]].
  exists articles, err, (tr ++ evs)%list.
  split; [exact Hrun|]. split; [exact Hlen|].
  unfold article_cap, int_or.
  destruct (max_articles =? 0) eqn:Hz; [reflexivity|].
  apply Z.eqb_neq in Hz.
  destruct (max_articles <? 0) eqn:Hn;
    [apply Z.ltb_lt in Hn | apply Z.ltb_ge in Hn]; lia.
Qed.

(* ================================================================= *)
(** ** Sentiment: more properties *)

Section SentimentMore.

Lemma sentiment_label_three_way (c : float) : three_way (sentiment_label c).
Proof.
  unfold three_way, sentiment_label.
  destruct (0.2 <? c)%float; [now left|].
  destruct (c <? -0.2)%float; [right; now left | right; now right].
Qed.

Lemma analyze_one_countable sia t : countable (analyze_one sia t).
Proof.
  destruct sia as [score|]; simpl.
  - exists (sentiment_label (compound (score (PyStr.or_empty t)))).
    split; [reflexivity|apply sentiment_label_three_way].
  - exists "neutral". split; [reflexivity|]. right. now right.
Qed.

Lemma batch_countable cls texts :
  Forall countable (analyze_sentiment_batch cls texts).
Proof.
  rewrite analyze_sentiment_batch_map. apply Forall_forall.
  intros r Hr. apply in_map_iff in Hr. destruct Hr as [t [<- _]].
  apply analyze_one_countable.
Qed.

Lemma count_label_cons l r scores :
  count_label l (r :: scores)
  = (if has_label l r then 1 else 0) + count_label l scores.
Proof.
  unfold count_label. cbn [filter].
  destruct (has_label l r); cbn [List.length]; lia.
Qed.

Lemma countable_split (scores : list dict) :
  Forall countable scores ->
  count_label "positive" scores + count_label "negative" scores
  + count_label "neutral" scores
  = Z.of_nat (List.length scores).
Proof.
  induction 1 as [|r rest Hc _ IH]; [reflexivity|].
  destruct Hc as [lbl [Hget Hlbl]].
  rewrite !count_label_cons. cbn [List.length]. rewrite Nat2Z.inj_succ.
  unfold has_label. rewrite Hget.
  destruct Hlbl as [-> | [-> | ->]];
    repeat match goal with
      | |- context [String.eqb ?x ?y] =>
          let v := eval vm_compute in (String.eqb x y) in
          change (String.eqb x y) with v
      end;
    cbv iota; lia.
Qed.

Lemma count_label_nonneg l scores : 0 <= count_label l scores.
Proof. unfold count_label. lia. Qed.

Lemma count_label_neutral_results l n :
  count_label l (map (fun _ : option string => neutral_result) n)
  = if String.eqb "neutral" l then Z.of_nat (List.length n) else 0.
Proof.
  induction n as [|t rest IH]; simpl map.
  - destruct (String.eqb "neutral" l); reflexivity.
  - rewrite count_label_cons, IH.
    change (has_label l neutral_result) with (String.eqb "neutral" l).
    cbn [List.length]. rewrite Nat2Z.inj_succ.
    destruct (String.eqb "neutral" l); lia.
Qed.

End SentimentMore.

(** X9. Texts are scored one by one: the batch of a concatenation is
    the concatenation of the batches, the result at a position is the
    result the text at that position gives on its own, and a missing
    text ([None]) is scored as the empty string. *)
Theorem sentiment_batch_independent :
  forall (cls : option (outcome analyzer)) (a b : list (option string)),
    analyze_sentiment_batch cls (a ++ b)
    = (analyze_sentiment_batch cls a ++ analyze_sentiment_batch cls b)%list
    /\ List.length (analyze_sentiment_batch cls a) = List.length a
    /\ (forall i t,
          nth_error a i = Some t ->
          nth_error (analyze_sentiment_batch cls a) i
          = nth_error (analyze_sentiment_batch cls [t]) 0)
    /\ analyze_sentiment_batch cls [None]
       = analyze_sentiment_batch cls [Some ""].
Proof.
  intros cls a b. rewrite !analyze_sentiment_batch_map.
  split; [apply map_app|]. split; [apply length_map|].
  split; [|reflexivity].
  intros i t Hi. rewrite analyze_sentiment_batch_map.
  rewrite nth_error_map, Hi. reflexivity.
Qed.

(** X10. The distribution the bias page computes from the scores of a
    batch, [(pos, neg, neu)] with [neu = len(scores) - pos - neg], is a
    partition: no count is negative, they add up to the number of texts
    (for the page: of articles), and [neu] is the number of results
    labelled "neutral". Without an analyzer it is [(0, 0, n)]. *)
Theorem label_distribution_partition :
  forall (cls : option (outcome analyzer)) (texts : list (option string)),
    let scores := analyze_sentiment_batch cls texts in
    let '(pos, neg, neu) := label_distribution scores in
    0 <= pos /\ 0 <= neg /\ 0 <= neu
    /\ pos + neg + neu = Z.of_nat (List.length texts)
    /\ neu = count_label "neutral" scores
    /\ (forall articles, texts = page_texts articles ->
          pos + neg + neu = Z.of_nat (List.length articles))
    /\ (_init_vader cls = None ->
        (pos, neg, neu) = (0, 0, Z.of_nat (List.length texts))).
Proof.
  intros cls texts scores. unfold label_distribution.
  pose proof (countable_split (batch_countable cls texts)) as Hsplit.
  fold scores in Hsplit.
  assert (Hlen : List.length scores = List.length texts).
  { unfold scores. rewrite analyze_sentiment_batch_map. apply length_map. }
  rewrite Hlen in *.
  pose proof (count_label_nonneg "positive" scores).
  pose proof (count_label_nonneg "negative" scores).
  pose proof (count_label_nonneg "neutral" scores).
  split; [lia|]. split; [lia|]. split; [lia|]. split; [lia|].
  split; [lia|]. split.
  { intros articles ->. unfold page_texts. rewrite length_map. lia. }
  intros Hnone. unfold scores.
  rewrite analyze_sentiment_batch_map, Hnone.
  change (map (analyze_one None) texts)
    with (map (fun _ : option string => neutral_result) texts).
  rewrite !count_label_neutral_results. simpl. f_equal. lia.
Qed.

(* ================================================================= *)
(** ** Keywords: more properties *)

Section KeywordMore.

Lemma insert_desc_sorted x l :
  StronglySorted by_count_desc l ->
  StronglySorted by_count_desc (insert_desc x l).
Proof.
  induction 1 as [|y r Hs IH Hall]; simpl.
  - constructor; constructor.
  - destruct (snd y <=? snd x) eqn:Hle.
    + apply Z.leb_le in Hle. constructor; [now constructor|].
      constructor; [exact Hle|].
      rewrite Forall_forall in *. intros z Hz.
      specialize (Hall z Hz). unfold by_count_desc in *. lia.
    + apply Z.leb_gt in Hle. constructor; [exact IH|].
      rewrite Forall_forall in *. intros z Hz.
      destruct (insert_desc_In _ _ _ Hz) as [->|Hz'].
      * unfold by_count_desc. lia.
      * now apply Hall.
Qed.

Lemma sort_desc_sorted l : StronglySorted by_count_desc (sort_desc l).
Proof.
  induction l as [|x r IH]; simpl; [constructor|].
  now apply insert_desc_sorted.
Qed.

Lemma insert_desc_perm x l : Permutation (insert_desc x l) (x :: l).
Proof.
  induction l as [|y r IH]; simpl; [reflexivity|].
  destruct (snd y <=? snd x); [reflexivity|].
  rewrite IH. apply perm_swap.
Qed.

Lemma sort_desc_perm l : Permutation (sort_desc l) l.
Proof.
  induction l as [|x r IH]; simpl; [reflexivity|].
  rewrite insert_desc_perm. now constructor.
Qed.

Lemma sorted_firstn (A : Type) (R : A -> A -> Prop) (n : nat) (l : list A) :
  StronglySorted R l -> StronglySorted R (firstn n l).
Proof.
  revert l. induction n as [|n IH]; intros l Hs; simpl; [constructor|].
  destruct l as [|x r]; [constructor|].
  apply StronglySorted_inv in Hs. destruct Hs as [Hr Hall].
  constructor; [now apply IH|]. now apply Forall_firstn.
Qed.

Lemma sorted_app_inv (A : Type) (R : A -> A -> Prop) (a b : list A) :
  StronglySorted R (a ++ b) ->
  forall x y, In x a -> In y b -> R x y.
Proof.
  induction a as [|h t IH]; intros Hs x y Hx Hy; [destruct Hx|].
  simpl in Hs. apply StronglySorted_inv in Hs. destruct Hs as [Ht Hall].
  destruct Hx as [->|Hx].
  - rewrite Forall_forall in Hall. apply Hall, in_or_app. now right.
  - now apply IH.
Qed.

Lemma NoDup_firstn (A : Type) (n : nat) (l : list A) :
  NoDup l -> NoDup (firstn n l).
Proof.
  intros H. rewrite <- (firstn_skipn n l) in H.
  now apply NoDup_app_remove_r in H.
Qed.

Lemma firstn_map (A B : Type) (f : A -> B) (n : nat) (l : list A) :
  firstn n (map f l) = map f (firstn n l).
Proof.
  revert l. induction n as [|n IH]; intros [|x r]; simpl; try reflexivity.
  now rewrite IH.
Qed.

Lemma counter_add_keys_eq w cnt :
  map fst (counter_add w cnt)
  = if in_dec string_dec w (map fst cnt) then map fst cnt
    else (map fst cnt ++ [w])%list.
Proof.
  induction cnt as [|[k n] r IH]; [reflexivity|].
  cbn [counter_add map fst].
  destruct (String.eqb k w) eqn:Hk.
  - apply String.eqb_eq in Hk. subst k. cbn [map fst].
    destruct (in_dec string_dec w (w :: map fst r)) as [_|Hn];
      [reflexivity | elim Hn; now left].
  - apply String.eqb_neq in Hk. cbn [map fst]. rewrite IH.
    destruct (in_dec string_dec w (map fst r)) as [Hin|Hnin];
      destruct (in_dec string_dec w (k :: map fst r)) as [Hin'|Hnin'];
      try reflexivity.
    + elim Hnin'. now right.
    + destruct Hin' as [->|Hin']; [congruence|contradiction].
Qed.

Lemma counter_add_NoDup w cnt :
  NoDup (map fst cnt) -> NoDup (map fst (counter_add w cnt)).
Proof.
  intros H. rewrite counter_add_keys_eq.
  destruct (in_dec string_dec w (map fst cnt)) as [Hin|Hnin]; [exact H|].
  apply NoDup_app; [exact H | repeat constructor; intros [] | ].
  intros x Hx [<-|[]]. contradiction.
Qed.

Lemma Counter_NoDup tokens : NoDup (map fst (Counter tokens)).
Proof.
  unfold Counter.
  enough (G : forall cnt, NoDup (map fst cnt) ->
                          NoDup (map fst (fold_left
                                            (fun c w => counter_add w c)
                                            tokens cnt))).
  { apply G. constructor. }
  induction tokens as [|w rest IH]; intros cnt H; simpl; [exact H|].
  apply IH. now apply counter_add_NoDup.
Qed.

Lemma counter_get_add w w' cnt :
  counter_get w (counter_add w' cnt)
  = counter_get w cnt + (if string_dec w' w then 1 else 0).
Proof.
  induction cnt as [|[k n] r IH]; cbn [counter_add counter_get].
  - destruct (string_dec w' w) as [->|Hne].
    + rewrite String.eqb_refl. lia.
    + apply String.eqb_neq in Hne. rewrite Hne. lia.
  - destruct (String.eqb k w') eqn:Hk; cbn [counter_get].
    + apply String.eqb_eq in Hk. subst k.
      destruct (String.eqb w' w) eqn:Hw.
      * apply String.eqb_eq in Hw. subst w'.
        destruct (string_dec w w); [lia|congruence].
      * apply String.eqb_neq in Hw.
        destruct (string_dec w' w); [congruence|lia].
    + destruct (String.eqb k w) eqn:Hw; [|exact IH].
      apply String.eqb_eq in Hw. subst k. apply String.eqb_neq in Hk.
      destruct (string_dec w' w); [congruence|lia].
Qed.

Lemma Counter_get tokens w :
  counter_get w (Counter tokens) = occurrences w tokens.
Proof.
  unfold Counter, occurrences.
  enough (G : forall cnt,
             counter_get w (fold_left (fun c x => counter_add x c) tokens cnt)
             = counter_get w cnt + Z.of_nat (count_occ string_dec tokens w)).
  { rewrite G. reflexivity. }
  induction tokens as [|x rest IH]; intros cnt; simpl; [lia|].
  rewrite IH, counter_get_add.
  destruct (string_dec x w); lia.
Qed.

Lemma counter_get_In w n cnt :
  NoDup (map fst cnt) -> In (w, n) cnt -> counter_get w cnt = n.
Proof.
  induction cnt as [|[k m] r IH]; intros Hnd Hin; [destruct Hin|].
  cbn [map fst] in Hnd. apply NoDup_cons_iff in Hnd.
  destruct Hnd as [Hk Hnd]. cbn [counter_get].
  destruct Hin as [[= -> ->]|Hin].
  - now rewrite String.eqb_refl.
  - destruct (String.eqb k w) eqn:Hw; [|now apply IH].
    apply String.eqb_eq in Hw. subst k. elim Hk.
    change w with (fst (w, n)). now apply in_map.
Qed.

End KeywordMore.

Section KeywordChars.

Lemma lower_char_no_upper (c : ascii) :
  PyStr.isupper (PyStr.lower_char c) = false.
Proof. destruct c as [[] [] [] [] [] [] [] []]; vm_compute; reflexivity. Qed.

Lemma lower_no_upper (s : string) : no_upper (PyStr.lower s).
Proof.
  unfold no_upper. induction s as [|c r IH]; simpl; [reflexivity|].
  now rewrite lower_char_no_upper, IH.
Qed.

Lemma forall_chars_of_list (P : ascii -> bool) (l : list ascii) :
  PyStr.forall_chars P (string_of_list_ascii l) = forallb P l.
Proof. induction l as [|c r IH]; simpl; [reflexivity|now rewrite IH]. Qed.

Lemma forallb_rev (P : ascii -> bool) (l : list ascii) :
  forallb P l = true -> forallb P (rev l) = true.
Proof.
  rewrite !forallb_forall. intros H x Hx. apply H. now apply in_rev.
Qed.

Lemma split_aux_chars (P : ascii -> bool) (s : string) :
  forall cur,
    PyStr.forall_chars P s = true ->
    forallb P cur = true ->
    Forall (fun w => PyStr.forall_chars P w = true) (PyStr.split_aux s cur).
Proof.
  assert (Hword : forall cur, forallb P cur = true ->
                   PyStr.forall_chars P (string_of_list_ascii (rev cur)) = true).
  { intros cur H. rewrite forall_chars_of_list. now apply forallb_rev. }
  induction s as [|c r IH]; intros cur Hs Hcur; simpl.
  - destruct cur; [constructor|]. constructor; [now apply Hword|constructor].
  - simpl in Hs. apply andb_true_iff in Hs. destruct Hs as [Hc Hr].
    destruct (PyStr.isspace c).
    + destruct cur; [now apply IH|].
      constructor; [now apply Hword|now apply IH].
    + apply IH; [exact Hr|]. simpl. now rewrite Hc, Hcur.
Qed.

Lemma split_chars (P : ascii -> bool) (s : string) :
  PyStr.forall_chars P s = true ->
  Forall (fun w => PyStr.forall_chars P w = true) (PyStr.split s).
Proof. intros H. now apply split_aux_chars. Qed.

Lemma filter_chars_alnum (w : string) :
  no_upper w ->
  PyStr.forall_chars lower_alnum (PyStr.filter_chars PyStr.isalnum w) = true.
Proof.
  unfold no_upper. induction w as [|c r IH]; simpl; [reflexivity|].
  intros H. apply andb_true_iff in H. destruct H as [Hc Hr].
  destruct (PyStr.isalnum c) eqn:Ha; [|now apply IH].
  simpl. rewrite (IH Hr), andb_true_r.
  unfold lower_alnum. unfold PyStr.isalnum in Ha.
  destruct (PyStr.isupper c); [discriminate|].
  now rewrite orb_false_r in Ha.
Qed.

Lemma keep_words_clean ws :
  forall tokens,
    Forall no_upper ws ->
    Forall clean_term tokens ->
    Forall clean_term (keep_words ws tokens).
Proof.
  induction ws as [|w0 rest IH]; intros tokens Hws Htok; simpl; [assumption|].
  apply Forall_cons_iff in Hws. destruct Hws as [Hw0 Hrest].
  destruct (Z.of_nat (String.length (PyStr.filter_chars PyStr.isalnum w0)) <? 3)
    eqn:Hlen; simpl; [now apply IH|].
  destruct (is_filler (PyStr.filter_chars PyStr.isalnum w0)) eqn:Hfill;
    [now apply IH|].
  apply IH; [exact Hrest|]. apply Forall_app. split; [exact Htok|].
  constructor; [|constructor]. apply Z.ltb_ge in Hlen.
  split; [now apply filter_chars_alnum|]. split; [exact Hfill|lia].
Qed.

Lemma collect_tokens_clean texts :
  forall tokens,
    Forall clean_term tokens -> Forall clean_term (collect_tokens texts tokens).
Proof.
  induction texts as [|t rest IH]; intros tokens Htok; simpl; [assumption|].
  apply IH. apply keep_words_clean; [|exact Htok].
  apply (split_chars (fun c => negb (PyStr.isupper c))).
  apply lower_no_upper.
Qed.

(** The counter the fallback ranks, and what membership in the result
    means. *)
Lemma fallback_result texts top_k :
  extract_keywords None texts top_k
  = Return (firstn (Z.to_nat top_k)
              (sort_desc (Counter (collect_tokens texts [])))).
Proof. apply extract_keywords_fallback. Qed.

Lemma fallback_In texts top_k e :
  In e (firstn (Z.to_nat top_k)
          (sort_desc (Counter (collect_tokens texts [])))) ->
  In e (Counter (collect_tokens texts [])).
Proof.
  intros H. apply firstn_incl_In in H.
  now apply (Permutation_in _ (sort_desc_perm _)) in H.
Qed.

End KeywordChars.

(** X11. The fallback ranking is ordered by decreasing count and names
    no term twice, for all texts and every [top_k]. *)
Theorem fallback_keywords_sorted_distinct :
  forall (texts : list (option string)) (top_k : Z),
    exists r,
      extract_keywords None texts top_k = Return r
      /\ StronglySorted by_count_desc r
      /\ NoDup (map fst r).
Proof.
  intros texts top_k. eexists. split; [apply fallback_result|]. split.
  - apply sorted_firstn, sort_desc_sorted.
  - rewrite <- firstn_map. apply NoDup_firstn.
    apply (Permutation_NoDup
             (Permutation_sym (Permutation_map fst (sort_desc_perm _)))).
    apply Counter_NoDup.
Qed.

(** X12. The count the fallback reports for a term is the number of
    times the term occurs among the tokens kept from the texts, and it
    is at least one. *)
Theorem fallback_keywords_counts :
  forall (texts : list (option string)) (top_k : Z)
         (r : list (string * Z)) (w : string) (n : Z),
    extract_keywords None texts top_k = Return r ->
    In (w, n) r ->
    n = occurrences w (collect_tokens texts [])
    /\ 1 <= n
    /\ In w (collect_tokens texts []).
Proof.
  intros texts top_k r w n Hr Hin.
  rewrite fallback_result in Hr. injection Hr as <-.
  apply fallback_In in Hin.
  assert (Hw : In w (collect_tokens texts [])).
  { apply Counter_keys. change w with (fst (w, n)). now apply in_map. }
  assert (Hn : n = occurrences w (collect_tokens texts [])).
  { rewrite <- Counter_get. symmetry.
    apply counter_get_In; [apply Counter_NoDup|exact Hin]. }
  split; [exact Hn|]. split; [|exact Hw].
  rewrite Hn. unfold occurrences.
  apply (count_occ_In string_dec) in Hw. lia.
Qed.

Lemma fallback_keywords_counts_witness :
  2 = occurrences "helps" (collect_tokens Sample.keyword_texts []).
Proof.
  exact (proj1 (@fallback_keywords_counts Sample.keyword_texts 2
                  [("helps", 2); ("doctors", 2)] "helps" 2
                  ltac:(vm_compute; reflexivity)
                  ltac:(left; reflexivity))).
Defined.

(** X13. The fallback returns the top of the ranking, whatever [top_k]
    is: [min(max(0, top_k), number of counted terms)] entries of the
    counter, so none for [top_k <= 0], and a counted term that is left
    out has a count no larger than any returned one. *)
Theorem fallback_keywords_top :
  forall (texts : list (option string)) (top_k : Z),
    exists r,
      extract_keywords None texts top_k = Return r
      /\ Z.of_nat (List.length r)
         = Z.min (Z.max 0 top_k)
                 (Z.of_nat (List.length (Counter (collect_tokens texts []))))
      /\ (forall e, In e r -> In e (Counter (collect_tokens texts [])))
      /\ (forall e e',
            In e r ->
            In e' (Counter (collect_tokens texts [])) ->
            ~ In e' r ->
            snd e' <= snd e).
Proof.
  intros texts top_k. eexists. split; [apply fallback_result|].
  set (ranked := sort_desc (Counter (collect_tokens texts []))).
  assert (Hlen : List.length ranked
                 = List.length (Counter (collect_tokens texts []))).
  { symmetry. apply Permutation_length, Permutation_sym, sort_desc_perm. }
  split; [rewrite length_firstn, Hlen; lia|].
  split; [intros e; apply fallback_In|].
  intros e e' He He' Hout.
  assert (Hin' : In e' ranked).
  { apply (Permutation_in _ (Permutation_sym (sort_desc_perm _))). exact He'. }
  rewrite <- (firstn_skipn (Z.to_nat top_k) ranked) in Hin'.
  apply in_app_or in Hin'. destruct Hin' as [Hin'|Hin']; [contradiction|].
  pose proof (sort_desc_sorted (Counter (collect_tokens texts []))) as Hs.
  fold ranked in Hs.
  rewrite <- (firstn_skipn (Z.to_nat top_k) ranked) in Hs.
  exact (@sorted_app_inv _ _ _ _ Hs _ _ He Hin').
Qed.

(** X14. On ASCII texts every term the fallback returns consists of
    lower-case letters and digits only, has at least three characters
    and is none of the filler words. *)
Theorem fallback_keywords_clean :
  forall (texts : list (option string)) (top_k : Z) (r : list (string * Z)),
    Forall ascii_text texts ->
    extract_keywords None texts top_k = Return r ->
    Forall (fun e => clean_term (fst e)) r.
Proof.
  intros texts top_k r _ Hr.
  rewrite fallback_result in Hr. injection Hr as <-.
  apply Forall_forall. intros [w n] Hin.
  apply fallback_In in Hin.
  assert (Hw : In w (collect_tokens texts [])).
  { apply Counter_keys. change w with (fst (w, n)). now apply in_map. }
  pose proof (collect_tokens_clean texts (Forall_nil _)) as Hall.
  rewrite Forall_forall in Hall. now apply Hall.
Qed.

Lemma fallback_keywords_clean_witness :
  Forall (fun e => clean_term (fst e)) [("helps", 2); ("doctors", 2)].
Proof.
  apply (@fallback_keywords_clean Sample.keyword_texts 2
           [("helps", 2); ("doctors", 2)]).
  - repeat constructor.
  - vm_compute. reflexivity.
Defined.



(** X16. On lists of any length a list can have, the buzz meter is
    monotone in the number of articles, is 5 for at most two articles
    and 100 from forty articles on. *)
Theorem buzz_monotone_saturating :
  forall (A : Type) (a b : list A),
    (List.length a <= List.length b)%nat ->
    Z.of_nat (List.length b) <= sys_maxsize ->
    exists va vb,
      buzz_meter_value a = Some va
      /\ buzz_meter_value b = Some vb
      /\ va <= vb
      /\ ((List.length b <= 2)%nat -> vb = 5)
      /\ ((40 <= List.length b)%nat -> vb = 100).
Proof.
  intros A a b Hab Hb.
  exists (buzz_exact (Z.of_nat (List.length a))),
         (buzz_exact (Z.of_nat (List.length b))).
  unfold buzz_meter_value.
  rewrite !buzz_float_any by lia.
  split; [reflexivity|]. split; [reflexivity|].
  rewrite !buzz_exact_div.
  assert (Hdiv : 100 * Z.of_nat (List.length a) / 40
                 <= 100 * Z.of_nat (List.length b) / 40).
  { apply Z.div_le_mono; lia. }
  split; [lia|]. split.
  - intros H2.
    assert (100 * Z.of_nat (List.length b) / 40 <= 5).
    { apply Z.div_le_upper_bound; lia. }
    lia.
  - intros H40.
    assert (100 <= 100 * Z.of_nat (List.length b) / 40).
    { apply Z.div_le_lower_bound; lia. }
    lia.
Qed.

Lemma buzz_monotone_saturating_witness :
  exists va vb,
    buzz_meter_value [tt] = Some va
    /\ buzz_meter_value [tt; tt; tt; tt] = Some vb
    /\ va <= vb.
Proof.
  destruct (@buzz_monotone_saturating unit [tt] [tt; tt; tt; tt]
              ltac:(simpl; lia) ltac:(vm_compute; discriminate))
    as [va [vb [Ha [Hb [Hle _]]]]].
  exists va, vb. now repeat split.
Defined.

(* ================================================================= *)
(** ** Summaries: properties *)

Section SummaryFacts.

Lemma take_n_split (n : nat) (s : string) :
  exists tail, s = PyStr.take_n n s ++ tail.
Proof.
  revert s. induction n as [|n IH]; intros s; [now exists s|].
  destruct s as [|c r]; [now exists ""|].
  destruct (IH r) as [tail Ht]. exists tail. simpl. now rewrite <- Ht.
Qed.

Lemma take_n_length (n : nat) (s : string) :
  String.length (PyStr.take_n n s) = Nat.min n (String.length s).
Proof.
  revert s. induction n as [|n IH]; intros s; [reflexivity|].
  destruct s as [|c r]; [reflexivity|]. simpl. now rewrite IH.
Qed.

Lemma take_split (k : Z) (s : string) :
  exists tail, s = PyStr.take k s ++ tail.
Proof. unfold PyStr.take. destruct (0 <=? k); apply take_n_split. Qed.

Lemma take_length (k : Z) (s : string) :
  0 <= k ->
  Z.of_nat (String.length (PyStr.take k s))
  = Z.min k (Z.of_nat (String.length s)).
Proof.
  intros Hk. unfold PyStr.take.
  destruct (0 <=? k) eqn:H; [|apply Z.leb_gt in H; lia].
  rewrite take_n_length. lia.
Qed.

Lemma append_length (a b : string) :
  String.length (a ++ b) = (String.length a + String.length b)%nat.
Proof. induction a as [|c r IH]; simpl; [reflexivity|now rewrite IH]. Qed.

Lemma append_assoc (a b c : string) : (a ++ b) ++ c = a ++ (b ++ c).
Proof. induction a as [|x r IH]; simpl; [reflexivity|now rewrite IH]. Qed.

Lemma append_empty_r (a : string) : a ++ "" = a.
Proof. induction a as [|x r IH]; simpl; [reflexivity|now rewrite IH]. Qed.

Lemma rstrip_split (s : string) :
  exists ws, s = PyStr.rstrip s ++ ws /\ blank ws.
Proof.
  induction s as [|c r IH]; [now exists ""|].
  destruct IH as [ws [Hs Hws]]. cbn [PyStr.rstrip].
  destruct (PyStr.rstrip r) as [|d r'] eqn:Hr.
  - destruct (PyStr.isspace c) eqn:Hc.
    + exists (String c r). split; [reflexivity|].
      unfold blank in *. simpl. rewrite Hc. simpl in Hs. now rewrite Hs.
    + exists ws. split; [|exact Hws]. simpl. simpl in Hs. now rewrite Hs at 1.
  - exists ws. split; [|exact Hws]. simpl. simpl in Hs. now rewrite Hs at 1.
Qed.

Lemma prefix_split (sub s : string) :
  prefix sub s = true -> exists rest, s = sub ++ rest.
Proof.
  revert s. induction sub as [|c r IH]; intros s H; [now exists s|].
  destruct s as [|d s']; [discriminate|]. simpl in H.
  destruct (ascii_dec c d) as [->|]; [|discriminate].
  destruct (IH _ H) as [rest ->]. now exists rest.
Qed.

(** A position [find_last] reports is one where the text reads [sub]. *)
Lemma find_last_split (sub s : string) :
  forall i r,
    0 <= i ->
    PyStr.find_last sub s i = r ->
    r = -1
    \/ exists before after,
         s = before ++ sub ++ after
         /\ r = i + Z.of_nat (String.length before).
Proof.
  induction s as [|c s' IH]; intros i r Hi Hr.
  - cbn [PyStr.find_last] in Hr.
    destruct (prefix sub "") eqn:Hp; [|left; now subst].
    right. destruct (prefix_split _ _ Hp) as [rest Hrest].
    destruct sub; [|discriminate]. exists "", "". subst. split; [reflexivity|].
    simpl. lia.
  - cbn [PyStr.find_last] in Hr.
    destruct (0 <=? PyStr.find_last sub s' (i + 1)) eqn:Hlater.
    + apply Z.leb_le in Hlater.
      destruct (IH (i + 1) _ ltac:(lia) eq_refl)
        as [Hneg|[before [after [Hs Hpos]]]]; [lia|].
      right. exists (String c before), after. split.
      * simpl. now rewrite <- Hs.
      * rewrite <- Hr, Hpos. simpl String.length. lia.
    + destruct (prefix sub (String c s')) eqn:Hp; [|left; now subst].
      right. destruct (prefix_split _ _ Hp) as [rest Hrest].
      exists "", rest. split; [exact Hrest|]. simpl. lia.
Qed.

Lemma rfind_split (sub t : string) (stop r : Z) :
  PyStr.rfind sub t stop = r ->
  0 <= r ->
  exists after,
    t = PyStr.take r t ++ sub ++ after
    /\ Z.of_nat (String.length (PyStr.take r t)) = r
    /\ (0 <= stop -> r + Z.of_nat (String.length sub) <= stop).
Proof.
  intros Hr Hpos. unfold PyStr.rfind in Hr.
  destruct (@find_last_split sub (PyStr.take stop t) 0 r ltac:(lia) Hr)
    as [Hneg|[before [after [Hs Hlen]]]]; [lia|].
  destruct (take_split stop t) as [tail Ht].
  assert (Ht' : t = before ++ (sub ++ (after ++ tail))).
  { rewrite Ht at 1. rewrite Hs. now rewrite !append_assoc. }
  assert (Htake : PyStr.take r t = before).
  { unfold PyStr.take. destruct (0 <=? r) eqn:H; [|apply Z.leb_gt in H; lia].
    replace (Z.to_nat r) with (String.length before) by lia.
    rewrite Ht'. clear. induction before as [|c b IH]; simpl.
    - destruct (sub ++ after ++ tail); reflexivity.
    - now rewrite IH. }
  exists (after ++ tail). rewrite Htake.
  split; [exact Ht'|]. split; [lia|].
  intros Hstop. pose proof (take_length t Hstop) as Hl.
  rewrite Hs, !append_length in Hl. lia.
Qed.

Lemma prefix_app (sub after : string) : prefix sub (sub ++ after) = true.
Proof.
  induction sub as [|c r IH]; simpl; [now destruct after|].
  destruct (ascii_dec c c); [exact IH|congruence].
Qed.

(** [find_last] reports the highest position: no occurrence lies
    further to the right. *)
Lemma find_last_max (sub s : string) :
  forall i before after,
    0 <= i ->
    s = before ++ sub ++ after ->
    i + Z.of_nat (String.length before) <= PyStr.find_last sub s i.
Proof.
  induction s as [|c s' IH]; intros i before after Hi Hs.
  - destruct before; [|discriminate]. destruct sub; [|discriminate].
    cbn. lia.
  - cbn [PyStr.find_last].
    destruct before as [|d b].
    + cbn [append] in Hs. rewrite Hs, prefix_app.
      destruct (0 <=? PyStr.find_last sub s' (i + 1)) eqn:Hlater;
        [|simpl; lia].
      apply Z.leb_le in Hlater.
      destruct (@find_last_split sub s' (i + 1) _ ltac:(lia) eq_refl)
        as [Hneg|[b' [a' [_ Hpos]]]]; simpl; lia.
    + cbn [append] in Hs. injection Hs as _ Hs.
      pose proof (IH (i + 1) b after ltac:(lia) Hs) as Hle.
      assert (H0 : (0 <=? PyStr.find_last sub s' (i + 1)) = true)
        by (apply Z.leb_le; lia).
      rewrite H0. simpl String.length. lia.
Qed.

Lemma take_n_app (p r : string) (n : nat) :
  (String.length p <= n)%nat ->
  PyStr.take_n n (p ++ r) = p ++ PyStr.take_n (n - String.length p) r.
Proof.
  revert n. induction p as [|c p IH]; intros n Hn.
  - simpl. now rewrite Nat.sub_0_r.
  - destruct n as [|n]; [simpl in Hn; lia|].
    simpl. rewrite IH by (simpl in Hn; lia). reflexivity.
Qed.

Lemma rfind_max (sub t : string) (stop i : Z) :
  0 <= stop ->
  occurs_at sub t i ->
  i + Z.of_nat (String.length sub) <= stop ->
  i <= PyStr.rfind sub t stop.
Proof.
  intros Hstop [before [after [Ht Hi]]] Hend.
  unfold PyStr.rfind, PyStr.take.
  destruct (0 <=? stop) eqn:H; [|apply Z.leb_gt in H; lia].
  rewrite Ht, take_n_app by lia.
  rewrite take_n_app by lia.
  rewrite <- Hi.
  apply (@find_last_max sub _ 0 before _ ltac:(lia) eq_refl).
Qed.

Lemma replace_char_length a b s :
  String.length (PyStr.replace_char a b s) = String.length s.
Proof. induction s as [|c r IH]; simpl; [reflexivity|now rewrite IH]. Qed.

Lemma replace_newline_single_line (s : string) :
  single_line (PyStr.replace_char newline " " s).
Proof.
  unfold single_line. induction s as [|c r IH]; [reflexivity|].
  cbn [PyStr.replace_char PyStr.exists_char]. rewrite IH, orb_false_r.
  destruct (Ascii.eqb c newline) eqn:Hc; [reflexivity|].
  now rewrite Ascii.eqb_sym.
Qed.

Lemma single_line_fixed (s : string) :
  single_line s -> PyStr.replace_char newline " " s = s.
Proof.
  unfold single_line. induction s as [|c r IH]; [reflexivity|].
  cbn [PyStr.replace_char PyStr.exists_char].
  intros H. apply orb_false_iff in H. destruct H as [Hc Hr].
  rewrite Ascii.eqb_sym in Hc. now rewrite Hc, IH.
Qed.

Lemma single_line_app (a b : string) :
  single_line (a ++ b) <-> single_line a /\ single_line b.
Proof.
  unfold single_line. induction a as [|c r IH].
  - simpl. split; [now split|now intros [_ H]].
  - cbn [append PyStr.exists_char].
    destruct (Ascii.eqb newline c); cbn [orb]; [|exact IH].
    split; [discriminate|now intros [H _]].
Qed.

Lemma first_char_replace (s : string) :
  (forall c, first_char s = Some c -> PyStr.isspace c = false) ->
  forall c, first_char (PyStr.replace_char newline " " s) = Some c ->
            PyStr.isspace c = false.
Proof.
  destruct s as [|a r]; intros H c; [discriminate|].
  cbn [PyStr.replace_char first_char].
  specialize (H a eq_refl).
  destruct (Ascii.eqb a newline) eqn:Ha.
  - apply Ascii.eqb_eq in Ha. subst a. discriminate.
  - now intros [= <-].
Qed.

Lemma last_char_replace (s : string) :
  (forall c, last_char s = Some c -> PyStr.isspace c = false) ->
  forall c, last_char (PyStr.replace_char newline " " s) = Some c ->
            PyStr.isspace c = false.
Proof.
  induction s as [|a r IH]; intros H c; [discriminate|].
  destruct r as [|b r'].
  - cbn [PyStr.replace_char last_char]. specialize (H a eq_refl).
    destruct (Ascii.eqb a newline) eqn:Ha.
    + apply Ascii.eqb_eq in Ha. subst a. discriminate.
    + now intros [= <-].
  - intros Hc. apply IH; [|exact Hc]. intros d Hd. apply H. exact Hd.
Qed.

Lemma one_line_trimmed (text : string) : trimmed (one_line text).
Proof.
  destruct (strip_trimmed text) as [Hf Hl]. unfold one_line. split.
  - now apply first_char_replace.
  - now apply last_char_replace.
Qed.

Lemma one_line_single (text : string) : single_line (one_line text).
Proof. apply replace_newline_single_line. Qed.

Lemma one_line_fixed (text : string) : one_line (one_line text) = one_line text.
Proof.
  unfold one_line at 1.
  rewrite (trimmed_strip (one_line_trimmed text)).
  apply single_line_fixed, one_line_single.
Qed.

Lemma summarize_short (text : string) (max_chars : Z) :
  Z.of_nat (String.length (one_line text)) <= max_chars ->
  summarize_text text max_chars = one_line text.
Proof.
  intros H. unfold summarize_text.
  destruct text as [|c r]; [reflexivity|]. cbn [PyStr.truthy negb].
  apply Z.leb_le in H. now rewrite H.
Qed.

Lemma summarize_long (text : string) (max_chars : Z) :
  text <> "" ->
  max_chars < Z.of_nat (String.length (one_line text)) ->
  summarize_text text max_chars
  = PyStr.rstrip (PyStr.take (cut_at (one_line text) max_chars) (one_line text))
    ++ ellipsis.
Proof.
  intros Hne H. unfold summarize_text.
  destruct text as [|c r]; [congruence|]. cbn [PyStr.truthy negb].
  apply Z.leb_gt in H. now rewrite H.
Qed.

Lemma ellipsis_single : single_line ellipsis.
Proof. reflexivity. Qed.

End SummaryFacts.

Section SummaryCut.

Variable text : string.
Variable max_chars : Z.

Local Notation t := (one_line text).
Local Notation stop := (cut_at (one_line text) max_chars).

Hypothesis Hmax : 0 <= max_chars.
Hypothesis Hlong : max_chars < Z.of_nat (String.length t).

Lemma text_nonempty : text <> "".
Proof.
  intros ->. simpl in Hlong. lia.
Qed.

(** A clause break at or after position 40 is a place where the text
    reads one of the three separators, two characters before the bound
    at the latest. *)
Lemma clause_break_split :
  40 <= clause_break t max_chars ->
  exists sep after,
    In sep clause_breaks
    /\ t = PyStr.take (clause_break t max_chars) t ++ sep ++ after
    /\ Z.of_nat (String.length (PyStr.take (clause_break t max_chars) t))
       = clause_break t max_chars
    /\ clause_break t max_chars + 2 <= max_chars.
Proof.
  intros H40.
  assert (Hone : forall sep,
             In sep clause_breaks ->
             PyStr.rfind sep t max_chars = clause_break t max_chars ->
             exists sep after,
               In sep clause_breaks
               /\ t = PyStr.take (clause_break t max_chars) t ++ sep ++ after
               /\ Z.of_nat (String.length
                              (PyStr.take (clause_break t max_chars) t))
                  = clause_break t max_chars
               /\ clause_break t max_chars + 2 <= max_chars).
  { intros sep Hsep Heq.
    destruct (@rfind_split sep t max_chars _ Heq ltac:(lia))
      as [after [Ht [Hlen Hstop]]].
    exists sep, after. split; [exact Hsep|]. split; [exact Ht|].
    split; [exact Hlen|].
    specialize (Hstop Hmax).
    destruct Hsep as [<-|[<-|[<-|[]]]]; simpl in Hstop; lia. }
  unfold clause_break in *.
  destruct (Z.max_spec (Z.max (PyStr.rfind ". " t max_chars)
                              (PyStr.rfind "; " t max_chars))
                       (PyStr.rfind ", " t max_chars)) as [[_ Hm]|[_ Hm]].
  - apply (Hone ", "); [right; right; now left|now rewrite Hm].
  - destruct (Z.max_spec (PyStr.rfind ". " t max_chars)
                         (PyStr.rfind "; " t max_chars)) as [[_ Hm']|[_ Hm']].
    + apply (Hone "; "); [right; now left|]. now rewrite Hm, Hm'.
    + apply (Hone ". "); [now left|]. now rewrite Hm, Hm'.
Qed.

(** No clause break that ends within the bound lies to the right of
    [clause_break]. *)
Lemma clause_break_max (j : Z) :
  break_within t max_chars j -> j <= clause_break t max_chars.
Proof.
  intros [sep [Hsep [Hocc Hend]]].
  pose proof (@rfind_max sep t max_chars j Hmax Hocc Hend) as Hle.
  unfold clause_break.
  destruct Hsep as [<-|[<-|[<-|[]]]]; lia.
Qed.

Lemma stop_range : 0 <= stop <= max_chars.
Proof.
  unfold cut_at. destruct (clause_break t max_chars <? 40) eqn:H; [lia|].
  apply Z.ltb_ge in H.
  destruct (clause_break_split H) as [_ [_ [_ [_ [_ Hle]]]]]. lia.
Qed.

Lemma summary_cut :
  exists ws after,
    summarize_text text max_chars = PyStr.rstrip (PyStr.take stop t) ++ ellipsis
    /\ t = PyStr.rstrip (PyStr.take stop t) ++ ws ++ after
    /\ blank ws
    /\ Z.of_nat (String.length (PyStr.rstrip (PyStr.take stop t) ++ ws)) = stop.
Proof.
  destruct (take_split stop t) as [after Ht].
  destruct (rstrip_split (PyStr.take stop t)) as [ws [Hws Hblank]].
  exists ws, after.
  split; [apply summarize_long; [apply text_nonempty|exact Hlong]|].
  split; [rewrite <- append_assoc, <- Hws; exact Ht|].
  split; [exact Hblank|].
  rewrite <- Hws. pose proof stop_range as Hr.
  rewrite take_length by lia. lia.
Qed.

End SummaryCut.

(** X17. A text that fits, once stripped and with its line feeds turned
    into spaces, within [max_chars] is returned in that form: no white
    space at the ends, no line feed, as long as the stripped text; and
    summarising the summary changes nothing. *)
Theorem summary_of_short_text :
  forall (text : string) (max_chars : Z),
    Z.of_nat (String.length (one_line text)) <= max_chars ->
    summarize_text text max_chars = one_line text
    /\ trimmed (summarize_text text max_chars)
    /\ single_line (summarize_text text max_chars)
    /\ String.length (summarize_text text max_chars)
       = String.length (PyStr.strip text)
    /\ summarize_text (summarize_text text max_chars) max_chars
       = summarize_text text max_chars.
Proof.
  intros text max_chars H. rewrite (summarize_short text H).
  split; [reflexivity|]. split; [apply one_line_trimmed|].
  split; [apply one_line_single|].
  split; [apply replace_char_length|].
  rewrite summarize_short; rewrite one_line_fixed; [reflexivity|exact H].
Qed.

Lemma summary_of_short_text_witness :
  summarize_text (String newline " Chips rally" ++ String newline "again  ") 220
  = "Chips rally again".
Proof.
  exact (proj1 (@summary_of_short_text
                  (String newline " Chips rally" ++ String newline "again  ")
                  220 ltac:(vm_compute; discriminate))).
Defined.

(** X18. A longer text ([max_chars >= 0]) is cut: the summary is a
    proper prefix of the one-line text, of at most [max_chars]
    characters and without white space at its end, followed by the
    ellipsis. *)
Theorem summary_of_long_text :
  forall (text : string) (max_chars : Z),
    0 <= max_chars ->
    max_chars < Z.of_nat (String.length (one_line text)) ->
    exists kept rest,
      summarize_text text max_chars = kept ++ ellipsis
      /\ one_line text = kept ++ rest
      /\ rest <> ""
      /\ Z.of_nat (String.length kept) <= max_chars
      /\ (forall c, last_char kept = Some c -> PyStr.isspace c = false).
Proof.
  intros text max_chars Hmax Hlong.
  destruct (@summary_cut text max_chars Hmax Hlong) as [ws [after [Hsum [Ht [_ Hlen]]]]].
  pose proof (@stop_range text max_chars Hmax) as Hstop.
  set (kept := PyStr.rstrip _) in *.
  exists kept, (ws ++ after).
  split; [exact Hsum|]. split; [exact Ht|].
  rewrite append_length in Hlen.
  split.
  - intros Hrest. rewrite Hrest, append_empty_r in Ht.
    rewrite Ht in Hlong. lia.
  - split; [lia|]. apply rstrip_last.
Qed.

Lemma summary_of_long_text_witness :
  exists kept rest,
    summarize_text SampleText.long_summary 70 = kept ++ ellipsis
    /\ one_line SampleText.long_summary = kept ++ rest.
Proof.
  destruct (@summary_of_long_text SampleText.long_summary 70
              ltac:(vm_compute; discriminate) ltac:(vm_compute; reflexivity))
    as [kept [rest [H1 [H2 _]]]].
  exists kept, rest. split; [exact H1|exact H2].
Defined.

(** X19. Where the cut falls ([max_chars >= 0], text too long): at the
    last [". "], ["; "] or [", "] that ends within the first [max_chars]
    characters, if that is at position 40 or later, the separator
    itself being left out; exactly at [max_chars] when every such break
    is before position 40 or there is none. White space before the cut
    is dropped. *)
Theorem summary_cut_position :
  forall (text : string) (max_chars : Z),
    0 <= max_chars ->
    max_chars < Z.of_nat (String.length (one_line text)) ->
    exists kept ws after,
      summarize_text text max_chars = kept ++ ellipsis
      /\ one_line text = kept ++ ws ++ after
      /\ blank ws
      /\ ((40 <= Z.of_nat (String.length (kept ++ ws))
           /\ break_within (one_line text) max_chars
                (Z.of_nat (String.length (kept ++ ws)))
           /\ (forall j,
                 break_within (one_line text) max_chars j ->
                 j <= Z.of_nat (String.length (kept ++ ws))))
          \/ ((forall j, break_within (one_line text) max_chars j -> j < 40)
              /\ Z.of_nat (String.length (kept ++ ws)) = max_chars)).
Proof.
  intros text max_chars Hmax Hlong.
  destruct (@summary_cut text max_chars Hmax Hlong)
    as [ws [after [Hsum [Ht [Hblank Hlen]]]]].
  set (kept := PyStr.rstrip _) in *.
  exists kept, ws, after.
  split; [exact Hsum|]. split; [exact Ht|]. split; [exact Hblank|].
  unfold cut_at in Hlen.
  pose proof (@clause_break_max text max_chars Hmax) as Hlast.
  destruct (clause_break (one_line text) max_chars <? 40) eqn:Hcb.
  - right. apply Z.ltb_lt in Hcb. split; [|exact Hlen].
    intros j Hj. specialize (Hlast j Hj). lia.
  - left. apply Z.ltb_ge in Hcb. rewrite Hlen.
    split; [exact Hcb|]. split; [|exact Hlast].
    destruct (@clause_break_split text max_chars Hmax Hcb)
      as [sep [rest [Hsep [Hsplit [Htake Hle]]]]].
    exists sep. split; [exact Hsep|]. split.
    + exists (PyStr.take (clause_break (one_line text) max_chars)
                (one_line text)), rest.
      split; [exact Hsplit|exact Htake].
    + destruct Hsep as [<-|[<-|[<-|[]]]]; simpl; lia.
Qed.

Lemma summary_cut_position_witness :
  exists kept ws after,
    summarize_text SampleText.long_summary 70 = kept ++ ellipsis
    /\ one_line SampleText.long_summary = kept ++ ws ++ after
    /\ blank ws.
Proof.
  destruct (@summary_cut_position SampleText.long_summary 70
              ltac:(vm_compute; discriminate) ltac:(vm_compute; reflexivity))
    as [kept [ws [after [H1 [H2 [H3 _]]]]]].
  exists kept, ws, after. split; [exact H1|]. split; [exact H2|exact H3].
Defined.

(** X20. A summary never contains a line feed, whatever the text and
    the bound. *)
Theorem summary_single_line :
  forall (text : string) (max_chars : Z),
    single_line (summarize_text text max_chars).
Proof.
  intros text max_chars.
  destruct (Z_le_gt_dec (Z.of_nat (String.length (one_line text))) max_chars)
    as [Hshort|Hlong].
  - rewrite summarize_short by exact Hshort. apply one_line_single.
  - destruct text as [|c r] eqn:Htext; [reflexivity|].
    rewrite summarize_long; [|discriminate|lia].
    apply single_line_app. split; [|apply ellipsis_single].
    set (k := cut_at _ _).
    destruct (take_split k (one_line (String c r))) as [tail Ht].
    destruct (rstrip_split (PyStr.take k (one_line (String c r))))
      as [ws [Hws _]].
    pose proof (one_line_single (String c r)) as Hs.
    rewrite Ht in Hs. apply single_line_app in Hs. destruct Hs as [Hs _].
    rewrite Hws in Hs. apply single_line_app in Hs. now destruct Hs.
Qed.

(* ================================================================= *)
(** ** Places: properties *)

Section PlaceFacts.

Lemma lower_char_idempotent (c : ascii) :
  PyStr.lower_char (PyStr.lower_char c) = PyStr.lower_char c.
Proof. destruct c as [[] [] [] [] [] [] [] []]; vm_compute; reflexivity. Qed.

Lemma lower_idempotent (s : string) :
  PyStr.lower (PyStr.lower s) = PyStr.lower s.
Proof.
  induction s as [|c r IH]; simpl; [reflexivity|].
  now rewrite lower_char_idempotent, IH.
Qed.

Lemma lower_app (a b : string) :
  PyStr.lower (a ++ b) = PyStr.lower a ++ PyStr.lower b.
Proof. induction a as [|c r IH]; simpl; [reflexivity|now rewrite IH]. Qed.

Lemma prefix_app_r (n h b : string) :
  prefix n h = true -> prefix n (h ++ b) = true.
Proof.
  revert h. induction n as [|c n IH]; intros h H;
    [destruct (h ++ b); reflexivity|].
  destruct h as [|d h]; [discriminate|]. simpl in *.
  destruct (ascii_dec c d); [now apply IH|discriminate].
Qed.

Lemma contains_app_r (n h b : string) :
  PyStr.contains n h = true -> PyStr.contains n (h ++ b) = true.
Proof.
  induction h as [|d h IH]; cbn [PyStr.contains append]; intros H.
  - rewrite orb_false_r in H. destruct n; [|discriminate].
    destruct b; reflexivity.
  - apply orb_true_iff in H. destruct H as [H|H].
    + change (String d (h ++ b)) with (String d h ++ b).
      now rewrite (prefix_app_r _ _ b H).
    + rewrite (IH H). apply orb_true_r.
Qed.

Lemma contains_app_l (n a h : string) :
  PyStr.contains n h = true -> PyStr.contains n (a ++ h) = true.
Proof.
  intros H. induction a as [|c a IH]; [exact H|].
  cbn [append PyStr.contains]. rewrite IH. apply orb_true_r.
Qed.

Lemma mentions_lower (text name : string) :
  mentions (PyStr.lower text) name = mentions text name.
Proof. unfold mentions. now rewrite lower_idempotent. Qed.

Lemma mentions_embedded (a text b name : string) :
  mentions text name = true -> mentions (a ++ text ++ b) name = true.
Proof.
  unfold mentions. intros H. rewrite !lower_app.
  now apply contains_app_l, contains_app_r.
Qed.

Lemma first_place_none places text :
  first_place places text = None
  <-> forall p, In p places -> mentions text (fst p) = false.
Proof.
  induction places as [|[name [lat lon]] rest IH]; simpl.
  - split; [intros _ p []|reflexivity].
  - destruct (mentions text name) eqn:Hm.
    + split; [discriminate|]. intros H.
      specialize (H (name, (lat, lon)) (or_introl eq_refl)). simpl in H.
      congruence.
    + rewrite IH. split.
      * intros H p [<-|Hp]; [exact Hm|now apply H].
      * intros H p Hp. apply H. now right.
Qed.

Lemma first_place_some places text lat lon name :
  first_place places text = Some (lat, lon, name) ->
  exists before after,
    places = (before ++ (name, (lat, lon)) :: after)%list
    /\ mentions text name = true
    /\ forall p, In p before -> mentions text (fst p) = false.
Proof.
  induction places as [|[name' [lat' lon']] rest IH]; simpl; [discriminate|].
  destruct (mentions text name') eqn:Hm.
  - intros [= <- <- <-]. exists [], rest.
    split; [reflexivity|]. split; [exact Hm|]. intros p [].
  - intros H. destruct (IH H) as [before [after [Hp [Hn Hb]]]].
    exists ((name', (lat', lon')) :: before), after.
    split; [simpl; now rewrite Hp|]. split; [exact Hn|].
    intros p [<-|Hin]; [exact Hm|now apply Hb].
Qed.

Lemma first_place_lower places text :
  first_place places (PyStr.lower text) = first_place places text.
Proof.
  induction places as [|[name [lat lon]] rest IH]; simpl; [reflexivity|].
  now rewrite mentions_lower, IH.
Qed.

Lemma truthy_lower (text : string) :
  PyStr.truthy (PyStr.lower text) = PyStr.truthy text.
Proof. destruct text; reflexivity. Qed.

Lemma no_place_in_empty :
  forall p, In p KNOWN_PLACES -> mentions "" (fst p) = false.
Proof.
  intros p Hp. simpl in Hp.
  repeat (destruct Hp as [<-|Hp]; [reflexivity|]). destruct Hp.
Qed.

Lemma guess_is_first_place (text : string) :
  guess_location_from_text text = first_place KNOWN_PLACES text.
Proof.
  unfold guess_location_from_text. destruct text as [|c r]; [|reflexivity].
  symmetry. apply first_place_none. exact no_place_in_empty.
Qed.

End PlaceFacts.

(** X21. [guess_location_from_text] finds nothing exactly when the text
    mentions none of the known places, upper and lower case being the
    same; the empty text mentions none. *)
Theorem no_place_iff_none_mentioned :
  forall (text : string),
    (guess_location_from_text text = None
     <-> forall p, In p KNOWN_PLACES -> mentions text (fst p) = false)
    /\ guess_location_from_text "" = None.
Proof.
  intros text. rewrite guess_is_first_place.
  split; [apply first_place_none|reflexivity].
Qed.

(** X22. A place that is found is an entry of the table, returned with
    its own coordinates; the text mentions it, and it mentions none of
    the places listed before it: the first match in the order of the
    table wins. *)
Theorem place_found_is_first_match :
  forall (text : string) (lat lon : float) (name : string),
    guess_location_from_text text = Some (lat, lon, name) ->
    exists before after,
      KNOWN_PLACES = (before ++ (name, (lat, lon)) :: after)%list
      /\ mentions text name = true
      /\ forall p, In p before -> mentions text (fst p) = false.
Proof.
  intros text lat lon name. rewrite guess_is_first_place.
  apply first_place_some.
Qed.

Lemma place_found_is_first_match_witness :
  exists before after,
    KNOWN_PLACES
    = (before ++ ("Paris", (48.8566, 2.3522)%float) :: after)%list
    /\ mentions "A comparison of chips made in TOKYO" "Paris" = true.
Proof.
  destruct (@place_found_is_first_match "A comparison of chips made in TOKYO"
              48.8566 2.3522 "Paris" ltac:(vm_compute; reflexivity))
    as [before [after [H1 [H2 _]]]].
  exists before, after. split; [exact H1|exact H2].
Defined.

(** X23. The search ignores case and looks for substrings: the text in
    lower case gives the same answer, and a text in which a place is
    found still yields a place when more text is put before and after
    it. *)
Theorem place_search_by_substring :
  forall (text : string),
    guess_location_from_text (PyStr.lower text)
    = guess_location_from_text text
    /\ (forall a b,
          guess_location_from_text text <> None ->
          guess_location_from_text (a ++ text ++ b) <> None).
Proof.
  intros text. split.
  - rewrite !guess_is_first_place. apply first_place_lower.
  - intros a b. rewrite !guess_is_first_place. intros Hfound Hnone.
    apply Hfound. apply first_place_none. intros p Hp.
    rewrite first_place_none in Hnone. specialize (Hnone p Hp).
    destruct (mentions text (fst p)) eqn:Hm; [|reflexivity].
    rewrite (@mentions_embedded a text b (fst p) Hm) in Hnone. discriminate.
Qed.

(* ================================================================= *)
(** ** The daily streak: properties *)

Section StreakFacts.

Variable int_of_str : string -> outcome Z.
Variable yesterday : string -> outcome string.

Lemma json_get_set_same (k : string) (v : json) (d : list (string * json)) :
  json_get k (json_set k v d) = Some v.
Proof.
  induction d as [|[k' v'] r IH]; cbn [json_set json_get].
  - now rewrite String.eqb_refl.
  - destruct (String.eqb k' k) eqn:E; cbn [json_get]; rewrite E;
      [reflexivity|exact IH].
Qed.

Lemma json_get_set_other (k k' : string) (v : json)
      (d : list (string * json)) :
  k <> k' -> json_get k (json_set k' v d) = json_get k d.
Proof.
  intros Hk. induction d as [|[k0 v0] r IH]; cbn [json_set json_get].
  - destruct (String.eqb k' k) eqn:E; [|reflexivity].
    apply String.eqb_eq in E. congruence.
  - destruct (String.eqb k0 k') eqn:E; cbn [json_get].
    + apply String.eqb_eq in E. subst k0.
      destruct (String.eqb k' k) eqn:E'; [|reflexivity].
      apply String.eqb_eq in E'. congruence.
    + destruct (String.eqb k0 k); [reflexivity|exact IH].
Qed.




Lemma is_str_recorded (x s : string) :
  is_str (Some (JStr x)) s = String.eqb x s.
Proof. reflexivity. Qed.

Lemma recorded_streak (d : disk) (day : string) (n : Z) :
  mkdir_error d = None ->
  recorded (streak_file d) day n ->
  get_daily_streak int_of_str d = Return n.
Proof.
  intros Hdir [m [Hf [_ Hs]]].
  unfold get_daily_streak, ensure_data_dir, stored_streak.
  rewrite Hdir, Hf. cbn. now rewrite Hs.
Qed.

Lemma writable_with_file (d : disk) (f : stored) :
  writable d -> writable (with_file d f).
Proof. intros [H1 H2]. split; assumption. Qed.

(** What a visit writes records the day of the visit. *)
Lemma written_recorded (today : string) (s : Z) (m : list (string * json)) :
  recorded
    (Holds (JObject (json_set "last_date" (JStr today)
                       (json_set "streak" (JInt s) m))))
    today s.
Proof.
  eexists. split; [reflexivity|]. split.
  - apply json_get_set_same.
  - rewrite json_get_set_other by discriminate. apply json_get_set_same.
Qed.


(** A visit on a file that records an earlier one. *)
Lemma increment_recorded (today last : string) (n : Z) (d : disk) :
  writable d ->
  recorded (streak_file d) last n ->
  exists d1,
    increment_daily_streak int_of_str yesterday today d = (Return tt, d1)
    /\ writable d1
    /\ (last = today -> d1 = d)
    /\ (last <> today -> yesterday today = Return last ->
        recorded (streak_file d1) today (n + 1))
    /\ (last <> today -> yesterday today <> Return last ->
        recorded (streak_file d1) today 1)
    /\ (forall k, k <> "streak" -> k <> "last_date" ->
        stored_get k (streak_file d1) = stored_get k (streak_file d)).
Proof.
  destruct d as [dm df dw]. unfold writable. cbn [mkdir_error write_error
    streak_file].
  intros [-> ->] [m [-> [Hl Hs]]].
  unfold increment_daily_streak, ensure_data_dir, stored_streak, _save_json.
  cbn [mkdir_error write_error streak_file _load_json members_of].
  rewrite Hl, Hs, is_str_recorded. cbn [py_int].
  destruct (String.eqb last today) eqn:E.
  - apply String.eqb_eq in E. eexists.
    split; [reflexivity|]. split; [split; reflexivity|].
    split; [reflexivity|].
    split; [intros H; contradiction|]. split; [intros H; contradiction|].
    reflexivity.
  - apply String.eqb_neq in E. eexists. split; [reflexivity|].
    cbn [mkdir_error write_error streak_file].
    split; [split; reflexivity|].
    split; [intros H; contradiction|].
    split; [|split].
    + intros _ Hy. rewrite Hy, is_str_recorded, String.eqb_refl.
      apply written_recorded.
    + intros _ Hy. destruct (yesterday today) as [y|e];
        [|apply written_recorded].
      rewrite is_str_recorded.
      destruct (String.eqb last y) eqn:E'; [|apply written_recorded].
      apply String.eqb_eq in E'. congruence.
    + intros k Hk1 Hk2. unfold stored_get. cbn [_load_json].
      rewrite !json_get_set_other by congruence. reflexivity.
Qed.


End StreakFacts.





(** X26. On a disk where the data directory can be made and the streak
    file written, and the file records a visit on day [last] with a
    streak of [n], a visit on another day never raises and records that
    day: with [n + 1] when [last] is the day before, with 1 otherwise,
    also when the day before cannot be computed. A visit on [last]
    itself changes nothing. Members of the file other than the two the
    function owns are kept. *)
Theorem streak_continues_or_resets :
  forall (int_of_str : string -> outcome Z)
         (yesterday : string -> outcome string)
         (today last : string) (n : Z) (d : disk),
    writable d ->
    recorded (streak_file d) last n ->
    exists d1,
      increment_daily_streak int_of_str yesterday today d = (Return tt, d1)
      /\ (last = today -> d1 = d)
      /\ (last <> today -> yesterday today = Return last ->
          recorded (streak_file d1) today (n + 1)
          /\ get_daily_streak int_of_str d1 = Return (n + 1))
      /\ (last <> today -> yesterday today <> Return last ->
          recorded (streak_file d1) today 1
          /\ get_daily_streak int_of_str d1 = Return 1)
      /\ (forall k, k <> "streak" -> k <> "last_date" ->
          stored_get k (streak_file d1) = stored_get k (streak_file d)).
Proof.
  intros int_of_str yesterday today last n d Hw Hrec.
  destruct (@increment_recorded int_of_str yesterday today last n d Hw Hrec)
    as [d1 [Hrun [Hw1 [Hsame [Hnext [Hreset Hkeep]]]]]].
  exists d1. split; [exact Hrun|]. split; [exact Hsame|].
  split; [|split; [|exact Hkeep]].
  - intros Hne Hy. pose proof (Hnext Hne Hy) as H.
    split; [exact H|exact (@recorded_streak int_of_str d1 _ _ (proj1 Hw1) H)].
  - intros Hne Hy. pose proof (Hreset Hne Hy) as H.
    split; [exact H|exact (@recorded_streak int_of_str d1 _ _ (proj1 Hw1) H)].
Qed.

Lemma streak_continues_or_resets_witness :
  exists d1,
    increment_daily_streak SampleStreak.no_int SampleStreak.calendar
      "2024-05-02" (SampleStreak.healthy SampleStreak.may_first)
    = (Return tt, d1)
    /\ get_daily_streak SampleStreak.no_int d1 = Return 5
    /\ stored_get "theme" (streak_file d1) = Some (JStr "dark").
Proof.
  destruct (@streak_continues_or_resets SampleStreak.no_int
              SampleStreak.calendar "2024-05-02" "2024-05-01" 4
              (SampleStreak.healthy SampleStreak.may_first)
              (conj eq_refl eq_refl)
              (ex_intro _ _ (conj eq_refl (conj eq_refl eq_refl))))
    as [d1 [H1 [_ [H2 [_ H3]]]]].
  exists d1. split; [exact H1|]. split.
  - exact (proj2 (H2 ltac:(discriminate) eq_refl)).
  - rewrite (H3 "theme" ltac:(discriminate) ltac:(discriminate)).
    reflexivity.
Defined.


